(** * Ledger service: the transaction manager over its storage client

    A shallow embedding of [internal/transactionmanager/transaction.go]:
    the manager's four operations, written over an arbitrary storage client
    (the manager only holds a reference to one), and a model of the store
    behind that client, built from the persisted schema and the repository
    contracts. *)

From Stdlib Require Import ZArith QArith Qpower Lia String Ascii List.
From stdpp Require Import base option list gmap strings.

Local Open Scope Z_scope.

(** ** Values the manager handles *)

(** [uuid.UUID] is a 16-byte array; it is read here as the 128-bit number the
    bytes spell, [uuid.Nil] being 0. *)
Abbreviation UUID := N.

Module uuid.
Definition Nil : UUID := 0%N.
End uuid.

(** [time.Time], as an instant counted from the zero time. *)
Definition Time : Type := Z.

(** [context.Context]: the manager never inspects it and hands it on to the
    storage client as it received it. *)
Record Context : Type := { deadline : option Z; cancelled : bool }.

Module context.
Definition Background : Context := {| deadline := None; cancelled := false |}.
End context.

(** [github.com/shopspring/decimal]: a decimal is [value * 10 ^ exp], with
    an arbitrary-precision [value] and an [int32] exponent, whose range plays
    no part here.  A nil [value] (the zero [Decimal{}]) reads as 0. *)
Module decimal.

Record Decimal : Type := { value : Z; exp : Z }.

Definition New (v e : Z) : Decimal := {| value := v; exp := e |}.

(** [Decimal{}] *)
Definition zero_value : Decimal := New 0 0.

(** [decimal.NewFromFloat(0)], which is [New(0, 0)]. *)
Definition NewFromFloat_0 : Decimal := New 0 0.

(** [d.Sign()]: -1, 0 or 1 with the sign of [value]. *)
Definition Sign (d : Decimal) : Z := Z.sgn (value d).

(** [d.IsPositive()] is [d.Sign() == 1]. *)
Definition IsPositive (d : Decimal) : bool := Sign d =? 1.

(** [d.rescale(e)] for [e <= exp d]: the same number at the finer exponent. *)
Definition rescale (d : Decimal) (e : Z) : Decimal :=
  {| value := value d * 10 ^ (exp d - e); exp := e |}.

(** [d.Add(d2)]: both operands are brought to the smaller exponent and the
    values are added. *)
Definition Add (d d2 : Decimal) : Decimal :=
  let e := Z.min (exp d) (exp d2) in
  {| value := value (rescale d e) + value (rescale d2 e); exp := e |}.

(** The rational number a decimal stands for. *)
Definition toQ (d : Decimal) : Q := (inject_Z (value d) * 10 ^ exp d)%Q.

(** [x.Cmp(y)] of [math/big]: -1, 0 or 1. *)
Definition big_Cmp (x y : Z) : Z :=
  match x ?= y with Lt => -1 | Eq => 0 | Gt => 1 end.

(** [d.Cmp(d2)]: the values are compared as they are when the exponents
    agree, and at the smaller exponent otherwise. *)
Definition Cmp (d d2 : Decimal) : Z :=
  if exp d =? exp d2 then big_Cmp (value d) (value d2)
  else
    let e := Z.min (exp d) (exp d2) in
    big_Cmp (value (rescale d e)) (value (rescale d2 e)).

(** [d.Equal(d2)] is [d.Cmp(d2) == 0]. *)
Definition Equal (d d2 : Decimal) : bool := Cmp d d2 =? 0.

End decimal.

Abbreviation Decimal := decimal.Decimal.

(** ** [strings.Contains] *)

Module strings.

Fixpoint HasPrefix (s prefix : string) : bool :=
  match prefix, s with
  | EmptyString, _ => true
  | String c p, String d r => if Ascii.eqb c d then HasPrefix r p else false
  | String _ _, EmptyString => false
  end.

Fixpoint Contains (s substr : string) : bool :=
  if HasPrefix s substr then true
  else match s with
       | EmptyString => false
       | String _ r => Contains r substr
       end.

End strings.

(** ** Go's [error] interface

    The manager reads an error of the storage layer through [Error()] only. *)
Class GoError (E : Type) : Type := Error : E -> string.

(** ** The storage package, as far as the manager uses it *)

Module storage.

(** Modelled from the spec: the declarations of [storage.Transaction],
    [storage.User] and [storage.StorageClient] are not in the sources.  The
    fields are those the manager reads and writes, which are the columns of
    the two tables; the client holds the two repositories with the methods
    the manager and the tests call. *)
Record Transaction : Type := {
  ID : UUID;
  Amount : Decimal;
  UserID : UUID;
  CreatedAt : Time;
  IdempotencyKey : UUID
}.

Record User : Type := { User_ID : UUID; Balance : Decimal }.

(** Go returns [(T, error)] pairs; [None] is the nil error.  A call on the
    store is a function of the store state [S], returning the new state. *)
Definition call (E S T : Type) : Type := S -> (T * option E) * S.

Record UserRepository (E S : Type) : Type := {
  Add : Context -> User -> S -> option E * S;
  FindByID : Context -> UUID -> call E S User
}.

Record TransactionRepository (E S : Type) : Type := {
  AddTransaction : Context -> Transaction -> call E S Transaction;
  GetUserTransactionHistory : forall (ctx : Context) (userID : UUID)
    (page pageSize : Z), call E S (list Transaction)
}.

Record StorageClient (E S : Type) : Type := {
  userRepository : UserRepository E S;
  transactionRepository : TransactionRepository E S
}.

Arguments Add {E S}.
Arguments FindByID {E S}.
Arguments AddTransaction {E S}.
Arguments GetUserTransactionHistory {E S}.
Arguments userRepository {E S}.
Arguments transactionRepository {E S}.

End storage.

(** ** The transaction manager *)

(** Modelled from the spec: the declaration of the manager's [Transaction] is
    not in the sources; its five fields are the ones [AddTransaction] copies
    to the storage row and [GetUserTransactionHistory] copies back. *)
Record Transaction : Type := {
  ID : UUID;
  Amount : Decimal;
  UserID : UUID;
  CreatedAt : Time;
  IdempotencyKey : UUID
}.

(** [Transaction{}] *)
Definition Transaction_zero : Transaction :=
  {| ID := uuid.Nil; Amount := decimal.zero_value; UserID := uuid.Nil;
     CreatedAt := 0; IdempotencyKey := uuid.Nil |}.

(** The errors the manager returns.  Its two sentinels are its own package
    variables; the storage package is compiled before the manager and cannot
    name them, so an error coming from the store is never one of the two:
    [surfaced e] is that error [e], handed to the caller as it is. *)
Inductive error (E : Type) : Type :=
| ErrInvalidTransaction
| ErrTransactionAlreadyExist
| surfaced (e : E).

Arguments ErrInvalidTransaction {E}.
Arguments ErrTransactionAlreadyExist {E}.
Arguments surfaced {E}.

Record TransactionManagerClient (E S : Type) : Type := {
  storageClient : storage.StorageClient E S
}.
Arguments storageClient {E S}.

Definition NewTransactionManagerClient {E S}
    (storage : storage.StorageClient E S) : TransactionManagerClient E S :=
  {| storageClient := storage |}.

(** The marker searched for in the text of a storage error. *)
Definition duplicate_marker : string :=
  "duplicate key value violates unique constraint".

Section Manager.
Context {E S : Type} `{GoError E}.

Definition ValidateTransaction (tm : TransactionManagerClient E S)
    (ctx : Context) (transaction : Transaction) : bool :=
  decimal.IsPositive (Amount transaction).

Definition AddTransaction (tm : TransactionManagerClient E S)
    (ctx : Context) (transactionEntity : Transaction)
    : S -> (Transaction * option (error E)) * S :=
  fun s =>
  if negb (ValidateTransaction tm ctx transactionEntity) then
    ((Transaction_zero, Some ErrInvalidTransaction), s)
  else
    let '((_, err), s') :=
      storage.AddTransaction (storage.transactionRepository (storageClient tm)) ctx
        {| storage.ID := ID transactionEntity;
           storage.Amount := Amount transactionEntity;
           storage.UserID := UserID transactionEntity;
           storage.CreatedAt := CreatedAt transactionEntity;
           storage.IdempotencyKey := IdempotencyKey transactionEntity |} s in
    match err with
    | Some e =>
        if strings.Contains (Error e) duplicate_marker then
          ((Transaction_zero, Some ErrTransactionAlreadyExist), s')
        else
          ((Transaction_zero, Some (surfaced e)), s')
    | None => ((transactionEntity, None), s')
    end.

Definition GetUserBalance (tm : TransactionManagerClient E S)
    (ctx : Context) (userID : UUID)
    : S -> (Decimal * option (error E)) * S :=
  fun s =>
  let '((user, err), s') :=
    storage.FindByID (storage.userRepository (storageClient tm)) ctx userID s in
  match err with
  | Some e => ((decimal.NewFromFloat_0, Some (surfaced e)), s')
  | None => ((storage.Balance user, None), s')
  end.

Definition GetUserTransactionHistory (tm : TransactionManagerClient E S)
    (ctx : Context) (userID : UUID) (page pageSize : Z)
    : S -> (list Transaction * option (error E)) * S :=
  fun s =>
  let '((_, err), s1) :=
    storage.FindByID (storage.userRepository (storageClient tm)) ctx userID s in
  match err with
  | Some e => (([], Some (surfaced e)), s1)
  | None =>
      let '((transactionResult, err), s2) :=
        storage.GetUserTransactionHistory
          (storage.transactionRepository (storageClient tm))
          ctx userID page pageSize s1 in
      match err with
      | Some e => (([], Some (surfaced e)), s2)
      | None =>
          (((fun transaction =>
               {| ID := storage.ID transaction;
                  Amount := storage.Amount transaction;
                  UserID := storage.UserID transaction;
                  CreatedAt := storage.CreatedAt transaction;
                  IdempotencyKey := storage.IdempotencyKey transaction |})
              <$> transactionResult, None), s2)
      end
  end.

End Manager.

(** ** A storage client that records the calls made on it

    [traced sc] behaves as [sc] and appends every call it receives to a log
    kept next to the store: what the manager asked of the store, in order. *)

Inductive Call : Type :=
| CallAdd (user : storage.User)
| CallFindByID (id : UUID)
| CallAddTransaction (transaction : storage.Transaction)
| CallGetUserTransactionHistory (userID : UUID) (page pageSize : Z).

Definition traced {E S} (sc : storage.StorageClient E S)
    : storage.StorageClient E (S * list Call) :=
  {| storage.userRepository :=
       {| storage.Add := fun ctx user '(s, log) =>
            let '(r, s') := storage.Add (storage.userRepository sc) ctx user s in
            (r, (s', log ++ [CallAdd user]));
          storage.FindByID := fun ctx id '(s, log) =>
            let '(r, s') := storage.FindByID (storage.userRepository sc) ctx id s in
            (r, (s', log ++ [CallFindByID id])) |};
     storage.transactionRepository :=
       {| storage.AddTransaction := fun ctx transaction '(s, log) =>
            let '(r, s') :=
              storage.AddTransaction (storage.transactionRepository sc)
                ctx transaction s in
            (r, (s', log ++ [CallAddTransaction transaction]));
          storage.GetUserTransactionHistory := fun ctx userID page pageSize '(s, log) =>
            let '(r, s') :=
              storage.GetUserTransactionHistory (storage.transactionRepository sc)
                ctx userID page pageSize s in
            (r, (s', log ++ [CallGetUserTransactionHistory userID page pageSize])) |} |}.

(** The storage row the manager builds from its own transaction. *)
Definition to_storage (t : Transaction) : storage.Transaction :=
  {| storage.ID := ID t; storage.Amount := Amount t; storage.UserID := UserID t;
     storage.CreatedAt := CreatedAt t; storage.IdempotencyKey := IdempotencyKey t |}.

(** ** The store behind the client

    The two tables of [scripts/init.sql]: [users(id PRIMARY KEY, balance)] as
    a map from id to balance, and [transactions(id PRIMARY KEY, user_id
    REFERENCES users, amount, created_at, idempotency_key)] as the rows in
    the order they were inserted.  Only [id] is a key of [transactions]:
    [idempotency_key] is a plain [NOT NULL] column.  Amounts and balances are
    kept as the exact decimals of the application; the rounding of the
    [DOUBLE PRECISION] columns is not modelled. *)
Record Store : Type := {
  users : gmap UUID Decimal;
  transactions : list storage.Transaction
}.

Definition Store_empty : Store := {| users := ∅; transactions := [] |}.

(** Modelled from the spec: the errors of the storage package, whose
    declarations are not in the sources.  [ErrUserNotFound] is the NotFound of
    [FindByID], [ErrUserAlreadyExists] the distinct error of [Add], and
    [PqError] an error of the database driver, which prints as its text after
    the driver's prefix. *)
Inductive StoreError : Type :=
| ErrUserNotFound
| ErrUserAlreadyExists
| PqError (message : string).

#[export] Instance StoreError_Error : GoError StoreError := fun e =>
  match e with
  | ErrUserNotFound => "user not found"
  | ErrUserAlreadyExists => "user already exists"
  | PqError message => "pq: " +:+ message
  end.

Definition quoted (name : string) : string :=
  String "034"%char (name +:+ String "034"%char EmptyString).

(** What PostgreSQL reports when an insert hits the unique index [name]. *)
Definition unique_violation (name : string) : StoreError :=
  PqError ("duplicate key value violates unique constraint " +:+ quoted name).

(** The conflict on the identity of a transaction: the primary key of
    [transactions]. *)
Definition ErrDuplicateID : StoreError := unique_violation "transactions_pkey".

(** What PostgreSQL 13, the server of [docker-compose.yml], reports for the
    other constraints of the schema: a row whose [user_id] is in no row of
    [users], and a null in a [NOT NULL] column. *)
Definition foreign_key_violation (table name : string) : StoreError :=
  PqError ("insert or update on table " +:+ quoted table +:+
           " violates foreign key constraint " +:+ quoted name).

Definition not_null_violation (column table : string) : StoreError :=
  PqError ("null value in column " +:+ quoted column +:+ " of relation " +:+
           quoted table +:+ " violates not-null constraint").

(** The failures of an insert into [transactions] that are not the conflict
    on its identity: the unknown user, as the repository or as the foreign
    key reports it, and a null in one of the five columns. *)
Definition unrelated_failures : list StoreError :=
  [ErrUserNotFound;
   foreign_key_violation "transactions" "transactions_user_id_fkey";
   not_null_violation "id" "transactions";
   not_null_violation "user_id" "transactions";
   not_null_violation "amount" "transactions";
   not_null_violation "created_at" "transactions";
   not_null_violation "idempotency_key" "transactions"].

Definition User_zero : storage.User :=
  {| storage.User_ID := uuid.Nil; storage.Balance := decimal.zero_value |}.

Definition storage_Transaction_zero : storage.Transaction :=
  to_storage Transaction_zero.

Definition has_id (id : UUID) (rows : list storage.Transaction) : bool :=
  existsb (fun r => N.eqb (storage.ID r) id) rows.

Definition rows_of (userID : UUID) (rows : list storage.Transaction)
    : list storage.Transaction :=
  List.filter (fun r => N.eqb (storage.UserID r) userID) rows.

Module pg.

(** Modelled from the spec: [UserRepository.Add], which is not in the
    sources: it fails with a distinct error if a user with that identity
    already exists, and records the user otherwise. *)
Definition Add (ctx : Context) (user : storage.User) (s : Store)
    : option StoreError * Store :=
  match users s !! storage.User_ID user with
  | Some _ => (Some ErrUserAlreadyExists, s)
  | None =>
      (None, {| users := <[storage.User_ID user := storage.Balance user]> (users s);
                transactions := transactions s |})
  end.

(** Modelled from the spec: [UserRepository.FindByID], which is not in the
    sources: it fails with NotFound if the user is absent and returns the
    user record otherwise. *)
Definition FindByID (ctx : Context) (id : UUID)
    : storage.call StoreError Store storage.User := fun s =>
  match users s !! id with
  | Some balance =>
      (({| storage.User_ID := id; storage.Balance := balance |}, None), s)
  | None => ((User_zero, Some ErrUserNotFound), s)
  end.

(** Modelled from the spec: [TransactionRepository.AddTransaction], which is
    not in the sources: one atomic step that looks the target user up
    (unknown user: UserNotFound), fails with the conflict of the primary key
    when a row with that [id] exists, and otherwise appends the row and adds
    its amount to the user's balance in the same step, in exact decimal
    arithmetic.  A failed insert leaves no partial state.  How the balance
    is kept is left open by the spec; no property below rests on the value
    of a balance. *)
Definition AddTransaction (ctx : Context) (transaction : storage.Transaction)
    : storage.call StoreError Store storage.Transaction := fun s =>
  match users s !! storage.UserID transaction with
  | None => ((storage_Transaction_zero, Some ErrUserNotFound), s)
  | Some balance =>
      if has_id (storage.ID transaction) (transactions s) then
        ((storage_Transaction_zero, Some ErrDuplicateID), s)
      else
        ((transaction, None),
         {| users := <[storage.UserID transaction :=
                         decimal.Add balance (storage.Amount transaction)]> (users s);
            transactions := transactions s ++ [transaction] |})
  end.

(** Modelled from the spec: [TransactionRepository.GetUserTransactionHistory],
    which is not in the sources: the rows of that user in insertion order,
    page [page] (counted from 1) of at most [pageSize] rows. *)
Definition GetUserTransactionHistory (ctx : Context) (userID : UUID)
    (page pageSize : Z)
    : storage.call StoreError Store (list storage.Transaction) := fun s =>
  ((take (Z.to_nat pageSize)
      (drop (Z.to_nat ((page - 1) * pageSize))
         (rows_of userID (transactions s))), None), s).

Definition client : storage.StorageClient StoreError Store :=
  {| storage.userRepository :=
       {| storage.Add := Add; storage.FindByID := FindByID |};
     storage.transactionRepository :=
       {| storage.AddTransaction := AddTransaction;
          storage.GetUserTransactionHistory := GetUserTransactionHistory |} |}.

End pg.

(** The manager of the service: [NewTransactionManagerClient(NewStorageClient(db))]. *)
Definition ledger : TransactionManagerClient StoreError Store :=
  NewTransactionManagerClient pg.client.

(** A storage client as a test double has it: every call fails with the
    error [e] and nothing is stored. *)
Definition failing {E} (e : E) : storage.StorageClient E unit :=
  {| storage.userRepository :=
       {| storage.Add := fun _ _ s => (Some e, s);
          storage.FindByID := fun _ _ s => ((User_zero, Some e), s) |};
     storage.transactionRepository :=
       {| storage.AddTransaction := fun _ _ s =>
            ((storage_Transaction_zero, Some e), s);
          storage.GetUserTransactionHistory := fun _ _ _ _ s => (([], Some e), s) |} |}.

(** ** Concurrent calls of [AddTransaction]

    The manager keeps no state of its own and takes no lock: a call touches
    the shared store in one place only, the insert, which the store performs
    as one atomic step.  A running call is therefore at one of four points of
    the function body, and a run of several calls is an interleaving of their
    steps, chosen by a schedule. *)

Inductive thread (E : Type) : Type :=
| at_entry (ctx : Context) (transactionEntity : Transaction)
| at_insert (ctx : Context) (transactionEntity : Transaction)
| at_check (transactionEntity : Transaction) (err : option E)
| returned (result : Transaction * option (error E)).

Arguments at_entry {E}.
Arguments at_insert {E}.
Arguments at_check {E}.
Arguments returned {E}.

Section Threads.
Context {E S : Type} `{GoError E}.

(** One step of a call: the validation guard, the insert, the reading of
    the insert's error, in the order of the function body. *)
Definition step (tm : TransactionManagerClient E S) (th : thread E) (s : S)
    : thread E * S :=
  match th with
  | at_entry ctx t =>
      if negb (ValidateTransaction tm ctx t) then
        (returned (Transaction_zero, Some ErrInvalidTransaction), s)
      else (at_insert ctx t, s)
  | at_insert ctx t =>
      let '((_, err), s') :=
        storage.AddTransaction (storage.transactionRepository (storageClient tm))
          ctx (to_storage t) s in
      (at_check t err, s')
  | at_check t err =>
      (returned
         match err with
         | Some e =>
             if strings.Contains (Error e) duplicate_marker then
               (Transaction_zero, Some ErrTransactionAlreadyExist)
             else (Transaction_zero, Some (surfaced e))
         | None => (t, None)
         end, s)
  | returned r => (returned r, s)
  end.

(** The scheduler lets call number [k] take its next step. *)
Definition schedule_step (tm : TransactionManagerClient E S)
    (cfg : list (thread E) * S) (k : nat) : list (thread E) * S :=
  match cfg.1 !! k with
  | Some th => let '(th', s') := step tm th cfg.2 in (<[k := th']> cfg.1, s')
  | None => cfg
  end.

Definition run (tm : TransactionManagerClient E S) (sched : list nat)
    (cfg : list (thread E) * S) : list (thread E) * S :=
  fold_left (schedule_step tm) sched cfg.

Definition spawn (calls : list (Context * Transaction)) : list (thread E) :=
  (fun c => at_entry c.1 c.2) <$> calls.

Definition is_returned (th : thread E) : bool :=
  match th with returned _ => true | _ => false end.

Definition succeeded (th : thread E) : bool :=
  match th with returned (_, None) => true | _ => false end.

Definition already_exists (th : thread E) : bool :=
  match th with
  | returned (_, Some ErrTransactionAlreadyExist) => true
  | _ => false
  end.

(** How far a call has come: 0 at entry, 3 once it has returned. *)
Definition phase (th : thread E) : nat :=
  match th with
  | at_entry _ _ => 0
  | at_insert _ _ => 1
  | at_check _ _ => 2
  | returned _ => 3
  end.

End Threads.

Definition count {A} (p : A -> bool) (l : list A) : nat :=
  length (List.filter p l).

(** The number of persisted rows with identity [id]. *)
Definition rows_with_id (id : UUID) (rows : list storage.Transaction) : nat :=
  count (fun r => N.eqb (storage.ID r) id) rows.

(** The number of persisted rows carrying the idempotency key [key]. *)
Definition rows_with_key (key : UUID) (rows : list storage.Transaction) : nat :=
  count (fun r => N.eqb (storage.IdempotencyKey r) key) rows.

(** ** The states of the ledger

    The store starts empty; users are registered with a zero balance, as
    every caller in the sources does ([Balance: decimal.NewFromFloat(0)]),
    and transactions enter through the manager only. *)
Inductive reachable : Store -> Prop :=
| reachable_empty : reachable Store_empty
| reachable_user ctx id s :
    reachable s ->
    reachable (pg.Add ctx {| storage.User_ID := id;
                             storage.Balance := decimal.NewFromFloat_0 |} s).2
| reachable_transaction ctx t s :
    reachable s -> reachable (AddTransaction ledger ctx t s).2.

(** ** Sample values *)

Definition alice : UUID := 7%N.

Definition deposit (id : UUID) (amount : Z) (key : UUID) : Transaction :=
  {| ID := id; Amount := decimal.New amount 0; UserID := alice;
     CreatedAt := 1577836800; IdempotencyKey := key |}.

(** A store with one registered user and nothing else. *)
Definition fresh : Store :=
  (pg.Add context.Background
     {| storage.User_ID := alice; storage.Balance := decimal.NewFromFloat_0 |}
     Store_empty).2.

(** ** The state of a run of calls that share the identity [id]

    [has_row th]: the insert of the call has succeeded; [past_insert th]: the
    call has issued its insert. *)
Definition has_row {E} (th : thread E) : bool :=
  match th with
  | at_check _ None | returned (_, None) => true
  | _ => false
  end.

Definition past_insert {E} (th : thread E) : bool :=
  match th with
  | at_check _ _ | returned _ => true
  | _ => false
  end.

(** What is known of one call of the run, over the store [s]. *)
Definition call_ok (id : UUID) (s : Store) (th : thread StoreError) : Prop :=
  match th with
  | at_entry ctx t | at_insert ctx t =>
      ID t = id /\ ValidateTransaction ledger ctx t = true /\
      is_Some (users s !! UserID t)
  | at_check _ None | returned (_, None) => True
  | at_check _ (Some e) => e = ErrDuplicateID
  | returned (_, Some e) => e = ErrTransactionAlreadyExist
  end.

(** The invariant of the run: a call holds the row exactly when the row is
    there, there is at most one row, and no call is past its insert while
    the row is missing. *)
Definition run_inv (id : UUID) (cfg : list (thread StoreError) * Store) : Prop :=
  Forall (call_ok id cfg.2) cfg.1 /\
  count has_row cfg.1 = rows_with_id id (transactions cfg.2) /\
  (rows_with_id id (transactions cfg.2) <= 1)%nat /\
  (count past_insert cfg.1 = 0%nat \/
   rows_with_id id (transactions cfg.2) = 1%nat).

(** ** The test helper and the conversion of rows *)

(** The manager's transaction built from a storage row, field by field, as
    the loop of [GetUserTransactionHistory] does. *)
Definition from_storage (transaction : storage.Transaction) : Transaction :=
  {| ID := storage.ID transaction;
     Amount := storage.Amount transaction;
     UserID := storage.UserID transaction;
     CreatedAt := storage.CreatedAt transaction;
     IdempotencyKey := storage.IdempotencyKey transaction |}.

Module time.
(** [t.Equal(u)]: the two values are the same instant. *)
Definition Equal (t u : Time) : bool := t =? u.
End time.

(** [transactionsEqual] of [internal/api/controller_test.go]. *)
Definition transactionsEqual (a b : Transaction) : bool :=
  N.eqb (ID a) (ID b) &&
  decimal.Equal (Amount a) (Amount b) &&
  N.eqb (UserID a) (UserID b) &&
  time.Equal (CreatedAt a) (CreatedAt b) &&
  N.eqb (IdempotencyKey a) (IdempotencyKey b).

(** ** Runs of calls with different identities *)

(** Call [c] of such a run and the thread that runs it: until its insert the
    identity is not in the store; after it the call holds its own row. *)
Definition tracks (s : Store) (c : Context * Transaction)
    (th : thread StoreError) : Prop :=
  ((th = at_entry c.1 c.2 \/ th = at_insert c.1 c.2) /\
   has_id (ID c.2) (transactions s) = false) \/
  ((th = at_check c.2 None \/ th = returned (c.2, None)) /\
   has_id (ID c.2) (transactions s) = true).

(** A thread waiting at its insert has passed the validation. *)
Definition insert_ready (th : thread StoreError) : Prop :=
  match th with
  | at_insert ctx t => ValidateTransaction ledger ctx t = true
  | _ => True
  end.

(** The store after the calls [seq], made one after the other. *)
Definition serial (s : Store) (seq : list (Context * Transaction)) : Store :=
  fold_left (fun s c => (AddTransaction ledger c.1 c.2 s).2) seq s.

(** A thread that has not issued its insert runs one of the calls [calls]. *)
Definition runs_one_of (calls : list (Context * Transaction))
    (th : thread StoreError) : Prop :=
  match th with
  | at_entry ctx t | at_insert ctx t => (ctx, t) ∈ calls
  | _ => True
  end.

(** * Properties *)

(** ** Strings *)

Lemma append_String (c : ascii) (p r : string) :
  String c p +:+ r = String c (p +:+ r).
Proof. reflexivity. Qed.

Lemma HasPrefix_spec (s prefix : string) :
  strings.HasPrefix s prefix = true <-> exists r, s = prefix +:+ r.
Proof.
  revert s. induction prefix as [|c p IH]; intros s; cbn.
  - split; [exists s; reflexivity | intros _; destruct s; reflexivity].
  - destruct s as [|d r]; cbn.
    + split; [discriminate | intros [r' Hr']; discriminate].
    + destruct (Ascii.eqb_spec c d) as [->|Hne].
      * rewrite IH. split; intros [r' Hr']; exists r';
          rewrite append_String in *; congruence.
      * split; [discriminate|]. intros [r' Hr'].
        rewrite append_String in Hr'. congruence.
Qed.

(** [strings.Contains s substr] holds exactly when [substr] occurs in [s]. *)
Lemma Contains_spec (s substr : string) :
  strings.Contains s substr = true <->
  exists before after, s = before +:+ substr +:+ after.
Proof.
  induction s as [|d r IH].
  - change (strings.Contains EmptyString substr)
      with (if strings.HasPrefix EmptyString substr then true else false).
    destruct (strings.HasPrefix EmptyString substr) eqn:Hp.
    + apply HasPrefix_spec in Hp as [r' Hr']. split; [|reflexivity].
      intros _. exists EmptyString, r'. exact Hr'.
    + split; [discriminate|]. intros ([|c b] & a & Ha); [|discriminate].
      assert (strings.HasPrefix EmptyString substr = true) as Hp'
        by (apply HasPrefix_spec; exists a; exact Ha).
      congruence.
  - change (strings.Contains (String d r) substr)
      with (if strings.HasPrefix (String d r) substr then true
            else strings.Contains r substr).
    destruct (strings.HasPrefix (String d r) substr) eqn:Hp.
    + apply HasPrefix_spec in Hp as [r' Hr']. split; [|reflexivity].
      intros _. exists EmptyString, r'. exact Hr'.
    + rewrite IH. split.
      * intros (b & a & ->). exists (String d b), a. reflexivity.
      * intros ([|c b] & a & Ha).
        -- assert (strings.HasPrefix (String d r) substr = true) as Hp'
             by (apply HasPrefix_spec; exists a; exact Ha).
           congruence.
        -- exists b, a. rewrite append_String in Ha. congruence.
Qed.

(** ** Decimals *)

Lemma ten_pow_pos (e : Z) : (0 < 10 ^ e)%Q.
Proof. apply Qpower_0_lt. reflexivity. Qed.

Lemma IsPositive_toQ (d : Decimal) :
  decimal.IsPositive d = true <-> (0 < decimal.toQ d)%Q.
Proof.
  unfold decimal.IsPositive, decimal.Sign, decimal.toQ.
  rewrite Z.eqb_eq, Z.sgn_pos_iff, (Zlt_Qlt 0 (decimal.value d)).
  rewrite <- (Qmult_lt_r (inject_Z 0) (inject_Z (decimal.value d)) _
                (ten_pow_pos (decimal.exp d))).
  rewrite Qmult_0_l. reflexivity.
Qed.

Lemma rescale_toQ (d : Decimal) (e : Z) :
  e <= decimal.exp d -> (decimal.toQ (decimal.rescale d e) == decimal.toQ d)%Q.
Proof.
  intros He. unfold decimal.toQ, decimal.rescale; simpl.
  rewrite inject_Z_mult, Zpower_Qpower by lia.
  rewrite <- Qmult_assoc, <- Qpower_plus by discriminate.
  replace (decimal.exp d - e + e) with (decimal.exp d) by lia. reflexivity.
Qed.

(** ** The manager over an arbitrary storage client *)

Section ManagerFacts.
Context {E S : Type} `{GoError E}.
Implicit Types (tm : TransactionManagerClient E S) (ctx : Context)
  (t : Transaction) (s : S).

Lemma AddTransaction_invalid tm ctx t s :
  ValidateTransaction tm ctx t = false ->
  AddTransaction tm ctx t s = ((Transaction_zero, Some ErrInvalidTransaction), s).
Proof. intros Hv. unfold AddTransaction. rewrite Hv. reflexivity. Qed.

Lemma AddTransaction_valid tm ctx t s :
  ValidateTransaction tm ctx t = true ->
  AddTransaction tm ctx t s =
    let '((_, err), s') :=
      storage.AddTransaction (storage.transactionRepository (storageClient tm))
        ctx (to_storage t) s in
    (match err with
     | Some e =>
         (Transaction_zero,
          Some (if strings.Contains (Error e) duplicate_marker
                then ErrTransactionAlreadyExist else surfaced e))
     | None => (t, None)
     end, s').
Proof.
  intros Hv. unfold AddTransaction, to_storage. rewrite Hv. cbn [negb].
  destruct (storage.AddTransaction _ _ _ _) as [[r [e|]] s']; [|reflexivity].
  destruct (strings.Contains _ _); reflexivity.
Qed.

Lemma Validate_false_iff tm ctx t :
  ValidateTransaction tm ctx t = false <-> (decimal.toQ (Amount t) <= 0)%Q.
Proof.
  unfold ValidateTransaction. rewrite <- not_true_iff_false, IsPositive_toQ.
  split; [apply Qnot_lt_le | apply Qle_not_lt].
Qed.

End ManagerFacts.

(** C10. [ValidateTransaction] reads the [Amount] field only: two transactions
    with equal amounts get the same answer, whatever the manager, the context
    and the other four fields are. *)
Theorem ValidateTransaction_reads_Amount_only
    {E S E' S' : Type} (tm : TransactionManagerClient E S)
    (tm' : TransactionManagerClient E' S') (ctx ctx' : Context)
    (t t' : Transaction) :
  Amount t = Amount t' ->
  ValidateTransaction tm ctx t = ValidateTransaction tm' ctx' t'.
Proof. unfold ValidateTransaction. intros ->. reflexivity. Qed.

Lemma ValidateTransaction_reads_Amount_only_witness :
  ValidateTransaction ledger context.Background (deposit 1%N 100 9%N) =
  ValidateTransaction (NewTransactionManagerClient (failing ErrUserNotFound))
    {| deadline := Some 5; cancelled := true |}
    {| ID := 2%N; Amount := decimal.New 100 0; UserID := 3%N;
       CreatedAt := 0; IdempotencyKey := 4%N |}.
Proof.
  apply (ValidateTransaction_reads_Amount_only ledger
           (NewTransactionManagerClient (failing ErrUserNotFound))).
  reflexivity.
Defined.

(** C5. [AddTransaction] returns [ErrInvalidTransaction] exactly when the
    amount is not strictly positive; it then returns before any call on the
    store, which is left as it was (also the log of a recording client);
    [ValidateTransaction] is the test "the amount is strictly positive". *)
Theorem AddTransaction_invalid_iff
    {E S : Type} `{GoError E} (tm : TransactionManagerClient E S)
    (ctx : Context) (t : Transaction) (s : S) :
  ((AddTransaction tm ctx t s).1.2 = Some ErrInvalidTransaction
     <-> (decimal.toQ (Amount t) <= 0)%Q) /\
  ((decimal.toQ (Amount t) <= 0)%Q ->
     AddTransaction tm ctx t s = ((Transaction_zero, Some ErrInvalidTransaction), s) /\
     forall log : list Call,
       AddTransaction (NewTransactionManagerClient (traced (storageClient tm)))
         ctx t (s, log) =
       ((Transaction_zero, Some ErrInvalidTransaction), (s, log))) /\
  (ValidateTransaction tm ctx t = true <-> (0 < decimal.toQ (Amount t))%Q).
Proof.
  split; [|split].
  - rewrite <- (Validate_false_iff tm ctx). split.
    + destruct (ValidateTransaction tm ctx t) eqn:Hv; [|reflexivity].
      rewrite (AddTransaction_valid _ _ _ _ Hv).
      destruct (storage.AddTransaction _ _ _ _) as [[r [e|]] s']; cbn.
      * destruct (strings.Contains _ _); discriminate.
      * discriminate.
    + intros Hv. rewrite (AddTransaction_invalid _ _ _ _ Hv). reflexivity.
  - intros Hle. split.
    + apply AddTransaction_invalid. apply Validate_false_iff. exact Hle.
    + intros log. apply AddTransaction_invalid.
      apply (Validate_false_iff tm ctx). exact Hle.
  - apply IsPositive_toQ.
Qed.

Lemma AddTransaction_invalid_iff_witness :
  AddTransaction ledger context.Background (deposit 1%N 0 9%N) fresh =
  ((Transaction_zero, Some ErrInvalidTransaction), fresh).
Proof.
  apply (AddTransaction_invalid_iff ledger context.Background
           (deposit 1%N 0 9%N) fresh).
  vm_compute. discriminate.
Defined.

(** C8. When the transaction is valid and the insert succeeds, the caller gets
    back the transaction it passed in, all five fields as they were. *)
Theorem AddTransaction_success_returns_input
    {E S : Type} `{GoError E} (tm : TransactionManagerClient E S)
    (ctx : Context) (t : Transaction) (s s' : S) (r : storage.Transaction) :
  ValidateTransaction tm ctx t = true ->
  storage.AddTransaction (storage.transactionRepository (storageClient tm))
    ctx (to_storage t) s = ((r, None), s') ->
  AddTransaction tm ctx t s = ((t, None), s') /\
  let t' := (AddTransaction tm ctx t s).1.1 in
  ID t' = ID t /\ UserID t' = UserID t /\ Amount t' = Amount t /\
  CreatedAt t' = CreatedAt t /\ IdempotencyKey t' = IdempotencyKey t.
Proof.
  intros Hv Hins. rewrite (AddTransaction_valid _ _ _ _ Hv), Hins. cbn.
  repeat split.
Qed.

Lemma AddTransaction_success_returns_input_witness :
  AddTransaction ledger context.Background (deposit 1%N 100 9%N) fresh =
  ((deposit 1%N 100 9%N, None),
   (pg.AddTransaction context.Background (to_storage (deposit 1%N 100 9%N)) fresh).2).
Proof.
  apply (AddTransaction_success_returns_input ledger context.Background
           (deposit 1%N 100 9%N) fresh _ (to_storage (deposit 1%N 100 9%N))).
  - reflexivity.
  - reflexivity.
Defined.

(** C9. Whenever [AddTransaction] returns an error, whichever of its three
    failure exits is taken, the transaction returned with it is the zero
    value [Transaction{}]; the caller's candidate, unless it is the zero
    value itself, does not come back next to an error. *)
Theorem AddTransaction_failure_returns_zero
    {E S : Type} `{GoError E} (tm : TransactionManagerClient E S)
    (ctx : Context) (t : Transaction) (s : S) (e : error E) :
  (AddTransaction tm ctx t s).1.2 = Some e ->
  (AddTransaction tm ctx t s).1.1 = Transaction_zero /\
  (t <> Transaction_zero -> (AddTransaction tm ctx t s).1.1 <> t).
Proof.
  intros He.
  assert ((AddTransaction tm ctx t s).1.1 = Transaction_zero) as Hz.
  { destruct (ValidateTransaction tm ctx t) eqn:Hv.
    - rewrite (AddTransaction_valid _ _ _ _ Hv) in He |- *.
      destruct (storage.AddTransaction _ _ _ _) as [[r [e'|]] s'];
        [reflexivity | discriminate He].
    - rewrite (AddTransaction_invalid _ _ _ _ Hv). reflexivity. }
  split; [exact Hz | rewrite Hz; congruence].
Qed.

Lemma AddTransaction_failure_returns_zero_witness :
  (AddTransaction ledger context.Background (deposit 1%N 100 9%N)
     (AddTransaction ledger context.Background (deposit 1%N 100 9%N) fresh).2).1.1
  = Transaction_zero.
Proof.
  apply (AddTransaction_failure_returns_zero ledger context.Background
           (deposit 1%N 100 9%N) _ ErrTransactionAlreadyExist).
  reflexivity.
Defined.

(** ** The manager over the store *)

Lemma duplicate_text_has_marker :
  strings.Contains (Error ErrDuplicateID) duplicate_marker = true.
Proof. reflexivity. Qed.

Lemma not_found_text_lacks_marker :
  strings.Contains (Error ErrUserNotFound) duplicate_marker = false.
Proof. reflexivity. Qed.

Lemma ledger_add_unknown_user ctx t s :
  ValidateTransaction ledger ctx t = true ->
  users s !! UserID t = None ->
  AddTransaction ledger ctx t s =
    ((Transaction_zero, Some (surfaced ErrUserNotFound)), s).
Proof.
  intros Hv Hu. rewrite (AddTransaction_valid _ _ _ _ Hv). cbn.
  unfold pg.AddTransaction. cbn [to_storage storage.UserID]. rewrite Hu.
  rewrite not_found_text_lacks_marker. reflexivity.
Qed.

Lemma ledger_add_duplicate ctx t s b :
  ValidateTransaction ledger ctx t = true ->
  users s !! UserID t = Some b ->
  has_id (ID t) (transactions s) = true ->
  AddTransaction ledger ctx t s =
    ((Transaction_zero, Some ErrTransactionAlreadyExist), s).
Proof.
  intros Hv Hu Hd. rewrite (AddTransaction_valid _ _ _ _ Hv). cbn.
  unfold pg.AddTransaction. cbn [to_storage storage.UserID storage.ID].
  rewrite Hu, Hd. rewrite duplicate_text_has_marker. reflexivity.
Qed.

Lemma ledger_add_fresh ctx t s b :
  ValidateTransaction ledger ctx t = true ->
  users s !! UserID t = Some b ->
  has_id (ID t) (transactions s) = false ->
  AddTransaction ledger ctx t s =
    ((t, None),
     {| users := <[UserID t := decimal.Add b (Amount t)]> (users s);
        transactions := transactions s ++ [to_storage t] |}).
Proof.
  intros Hv Hu Hd. rewrite (AddTransaction_valid _ _ _ _ Hv). cbn.
  unfold pg.AddTransaction. cbn [to_storage storage.UserID storage.ID].
  rewrite Hu, Hd. reflexivity.
Qed.

(** The three ways a call of the manager leaves the store. *)
Lemma ledger_add_store ctx t s :
  (AddTransaction ledger ctx t s).2 = s \/
  exists b, ValidateTransaction ledger ctx t = true /\
    users s !! UserID t = Some b /\
    has_id (ID t) (transactions s) = false /\
    (AddTransaction ledger ctx t s).1 = (t, None) /\
    (AddTransaction ledger ctx t s).2 =
      {| users := <[UserID t := decimal.Add b (Amount t)]> (users s);
         transactions := transactions s ++ [to_storage t] |}.
Proof.
  destruct (ValidateTransaction ledger ctx t) eqn:Hv.
  - destruct (users s !! UserID t) as [b|] eqn:Hu.
    + destruct (has_id (ID t) (transactions s)) eqn:Hd.
      * left. rewrite (ledger_add_duplicate _ _ _ _ Hv Hu Hd). reflexivity.
      * right. exists b. rewrite (ledger_add_fresh _ _ _ _ Hv Hu Hd). auto.
    + left. rewrite (ledger_add_unknown_user _ _ _ Hv Hu). reflexivity.
  - left. rewrite (AddTransaction_invalid _ _ _ _ Hv). reflexivity.
Qed.

Lemma unrelated_failures_lack_marker :
  Forall (fun e => strings.Contains (Error e) duplicate_marker = false)
    unrelated_failures.
Proof. repeat constructor. Qed.

(** The two ways the insert of the store fails. *)
Lemma pg_insert_failure ctx row s r e s' :
  pg.AddTransaction ctx row s = ((r, Some e), s') ->
  s' = s /\
  ((e = ErrUserNotFound /\ users s !! storage.UserID row = None) \/
   (e = ErrDuplicateID /\ is_Some (users s !! storage.UserID row) /\
    has_id (storage.ID row) (transactions s) = true)).
Proof.
  unfold pg.AddTransaction.
  destruct (users s !! storage.UserID row) as [b|] eqn:Hu.
  - destruct (has_id (storage.ID row) (transactions s)) eqn:Hd.
    + intros [= <- <- <-]. split; [reflexivity|]. right. eauto.
    + discriminate.
  - intros [= <- <- <-]. split; [reflexivity|]. left. auto.
Qed.

(** C3. Over the store, a failed insert of a valid transaction is answered
    with [ErrTransactionAlreadyExist] when the failure is the conflict on the
    identity, which happens only when a row with that id is persisted, and
    with the store's own error, unmodified, when it is any other failure;
    the two answers never coincide.  The insert is issued once and its
    failure leaves the store as it was.  With any client, the failures of
    the schema that are unrelated to the identity (unknown user, foreign
    key, null in a column), and every error whose text lacks the conflict
    marker, are handed to the caller unmodified. *)
Theorem AddTransaction_distinguishes_duplicate :
  (forall (s s' : Store) (ctx : Context) (t : Transaction)
      (r : storage.Transaction) (e : StoreError),
     ValidateTransaction ledger ctx t = true ->
     pg.AddTransaction ctx (to_storage t) s = ((r, Some e), s') ->
     (e = ErrDuplicateID ->
      has_id (ID t) (transactions s) = true /\
      AddTransaction ledger ctx t s =
        ((Transaction_zero, Some ErrTransactionAlreadyExist), s)) /\
     (e <> ErrDuplicateID ->
      AddTransaction ledger ctx t s = ((Transaction_zero, Some (surfaced e)), s)) /\
     (forall log : list Call,
        (AddTransaction (NewTransactionManagerClient (traced pg.client))
           ctx t (s, log)).2 = (s, log ++ [CallAddTransaction (to_storage t)]))) /\
  (forall (E S : Type) (HE : GoError E) (tm : TransactionManagerClient E S)
      (ctx : Context) (t : Transaction) (s s' : S)
      (r : storage.Transaction) (e : E),
     ValidateTransaction tm ctx t = true ->
     storage.AddTransaction (storage.transactionRepository (storageClient tm))
       ctx (to_storage t) s = ((r, Some e), s') ->
     strings.Contains (Error e) duplicate_marker = false ->
     AddTransaction tm ctx t s = ((Transaction_zero, Some (surfaced e)), s')) /\
  (forall (S : Type) (tm : TransactionManagerClient StoreError S)
      (ctx : Context) (t : Transaction) (s s' : S)
      (r : storage.Transaction) (e : StoreError),
     ValidateTransaction tm ctx t = true ->
     storage.AddTransaction (storage.transactionRepository (storageClient tm))
       ctx (to_storage t) s = ((r, Some e), s') ->
     e ∈ unrelated_failures ->
     AddTransaction tm ctx t s = ((Transaction_zero, Some (surfaced e)), s')).
Proof.
  assert (forall (E S : Type) (HE : GoError E) (tm : TransactionManagerClient E S)
            (ctx : Context) (t : Transaction) (s s' : S)
            (r : storage.Transaction) (e : E),
            ValidateTransaction tm ctx t = true ->
            storage.AddTransaction (storage.transactionRepository (storageClient tm))
              ctx (to_storage t) s = ((r, Some e), s') ->
            strings.Contains (Error e) duplicate_marker = false ->
            AddTransaction tm ctx t s =
              ((Transaction_zero, Some (surfaced e)), s')) as Hplain.
  { intros E S HE tm ctx t s s' r e Hv Hins Hno.
    rewrite (AddTransaction_valid _ _ _ _ Hv), Hins, Hno. reflexivity. }
  split; [|split].
  - intros s s' ctx t r e Hv Hins.
    destruct (pg_insert_failure _ _ _ _ _ _ Hins) as [-> Hcause].
    split; [|split].
    + intros ->. destruct Hcause as [[Hne _] | (_ & _ & Hd)]; [discriminate Hne|].
      split; [exact Hd|].
      rewrite (AddTransaction_valid _ _ _ _ Hv). cbn.
      rewrite Hins, duplicate_text_has_marker. reflexivity.
    + intros Hne. destruct Hcause as [[-> _] | [-> _]]; [|congruence].
      apply (Hplain _ _ _ ledger ctx t s s r ErrUserNotFound Hv Hins).
      reflexivity.
    + intros log.
      rewrite (AddTransaction_valid
                 (NewTransactionManagerClient (traced pg.client)) _ _ _ Hv).
      cbn. rewrite Hins.
      destruct (strings.Contains (Error e) duplicate_marker); reflexivity.
  - exact Hplain.
  - intros S tm ctx t s s' r e Hv Hins Hin.
    apply (Hplain _ _ _ tm ctx t s s' r e Hv Hins).
    pose proof unrelated_failures_lack_marker as Hall.
    rewrite Forall_forall in Hall. apply Hall, Hin.
Qed.

Lemma AddTransaction_distinguishes_duplicate_witness :
  AddTransaction ledger context.Background (deposit 1%N 100 9%N)
    (AddTransaction ledger context.Background (deposit 1%N 100 9%N) fresh).2 =
  ((Transaction_zero, Some ErrTransactionAlreadyExist),
   (AddTransaction ledger context.Background (deposit 1%N 100 9%N) fresh).2).
Proof.
  refine (proj2 (proj1 (proj1 AddTransaction_distinguishes_duplicate
            (AddTransaction ledger context.Background (deposit 1%N 100 9%N) fresh).2
            (AddTransaction ledger context.Background (deposit 1%N 100 9%N) fresh).2
            context.Background (deposit 1%N 100 9%N)
            storage_Transaction_zero ErrDuplicateID _ _) _)).
  - reflexivity.
  - reflexivity.
  - reflexivity.
Defined.

(** *** Counting rows *)

Lemma count_app {A} (p : A -> bool) (l l' : list A) :
  count p (l ++ l') = (count p l + count p l')%nat.
Proof. unfold count. rewrite List.filter_app, length_app. reflexivity. Qed.

Lemma has_id_count id rows :
  has_id id rows = false <-> rows_with_id id rows = 0%nat.
Proof.
  unfold has_id, rows_with_id, count. induction rows as [|r rows IH]; cbn.
  - tauto.
  - destruct (N.eqb (storage.ID r) id); cbn; [split; discriminate | exact IH].
Qed.

(** *** What holds of every state of the ledger *)

Lemma reachable_one_row_per_id s id :
  reachable s -> (rows_with_id id (transactions s) <= 1)%nat.
Proof.
  induction 1 as [|ctx u s Hs IH|ctx t s Hs IH].
  - cbn. lia.
  - unfold pg.Add. destruct (users s !! _); exact IH.
  - destruct (ledger_add_store ctx t s) as [->|(b & _ & _ & Hd & _ & ->)];
      [exact IH|].
    cbn [transactions]. unfold rows_with_id in *. rewrite count_app.
    unfold count at 2. cbn [List.filter to_storage storage.ID].
    destruct (N.eqb_spec (ID t) id) as [Heq|Hne]; cbn [length]; [|lia].
    rewrite Heq in Hd. apply has_id_count in Hd. unfold rows_with_id in Hd. lia.
Qed.

(** C4. For a user that is not in the store, [GetUserBalance],
    [GetUserTransactionHistory] and [AddTransaction] of a transaction with a
    positive amount each fail with the store's UserNotFound, and leave the
    store as it was. *)
Theorem unknown_user_is_UserNotFound (s : Store) (ctx : Context) (u : UUID) :
  users s !! u = None ->
  GetUserBalance ledger ctx u s =
    ((decimal.NewFromFloat_0, Some (surfaced ErrUserNotFound)), s) /\
  (forall page pageSize : Z,
     GetUserTransactionHistory ledger ctx u page pageSize s =
       (([], Some (surfaced ErrUserNotFound)), s)) /\
  (forall t : Transaction,
     UserID t = u -> ValidateTransaction ledger ctx t = true ->
     AddTransaction ledger ctx t s =
       ((Transaction_zero, Some (surfaced ErrUserNotFound)), s)).
Proof.
  intros Hu. split; [|split].
  - unfold GetUserBalance. cbn. unfold pg.FindByID. rewrite Hu. reflexivity.
  - intros page pageSize. unfold GetUserTransactionHistory. cbn.
    unfold pg.FindByID. rewrite Hu. reflexivity.
  - intros t <- Hv. apply ledger_add_unknown_user; assumption.
Qed.

Lemma unknown_user_is_UserNotFound_witness :
  GetUserBalance ledger context.Background 8%N fresh =
    ((decimal.NewFromFloat_0, Some (surfaced ErrUserNotFound)), fresh).
Proof.
  apply (unknown_user_is_UserNotFound fresh context.Background 8%N).
  reflexivity.
Defined.

(** C7. [GetUserTransactionHistory] looks the user up first.  When that
    lookup fails, with any client, the call fails with the lookup's error and
    the store has seen the lookup only; over the store, an unknown user gets
    UserNotFound and no transaction lookup is made, and a registered user
    without transactions gets the empty sequence and no error, the user
    lookup coming before the transaction lookup. *)
Theorem history_checks_user_first :
  (forall (E S : Type) (HE : GoError E) (sc : storage.StorageClient E S)
      (ctx : Context) (u : UUID) (page pageSize : Z) (s s1 : S)
      (log : list Call) (user : storage.User) (e : E),
     storage.FindByID (storage.userRepository sc) ctx u s = ((user, Some e), s1) ->
     GetUserTransactionHistory (NewTransactionManagerClient (traced sc))
       ctx u page pageSize (s, log) =
     (([], Some (surfaced e)), (s1, log ++ [CallFindByID u]))) /\
  (forall (s : Store) (ctx : Context) (u : UUID) (page pageSize : Z)
      (log : list Call),
     (users s !! u = None ->
      GetUserTransactionHistory (NewTransactionManagerClient (traced pg.client))
        ctx u page pageSize (s, log) =
      (([], Some (surfaced ErrUserNotFound)), (s, log ++ [CallFindByID u]))) /\
     (is_Some (users s !! u) -> rows_of u (transactions s) = [] ->
      GetUserTransactionHistory (NewTransactionManagerClient (traced pg.client))
        ctx u page pageSize (s, log) =
      (([], None),
       (s, log ++ [CallFindByID u;
                   CallGetUserTransactionHistory u page pageSize])))).
Proof.
  split.
  - intros E S HE sc ctx u page pageSize s s1 log user e Hfind.
    unfold GetUserTransactionHistory. cbn. rewrite Hfind. reflexivity.
  - intros s ctx u page pageSize log. split.
    + intros Hu. unfold GetUserTransactionHistory. cbn.
      unfold pg.FindByID. rewrite Hu. reflexivity.
    + intros [b Hb] Hrows. unfold GetUserTransactionHistory. cbn.
      unfold pg.FindByID, pg.GetUserTransactionHistory. rewrite Hb, Hrows.
      rewrite drop_nil, take_nil, <- app_assoc. reflexivity.
Qed.

Lemma history_checks_user_first_witness :
  GetUserTransactionHistory (NewTransactionManagerClient (traced pg.client))
    context.Background alice 1 10 (fresh, []) =
  (([], None),
   (fresh, [CallFindByID alice; CallGetUserTransactionHistory alice 1 10])).
Proof.
  apply (proj2 (proj2 history_checks_user_first fresh context.Background
                  alice 1 10 [])).
  - exists decimal.NewFromFloat_0. reflexivity.
  - reflexivity.
Defined.




(** ** Runs of concurrent calls *)

Section RunFacts.
Context {E S : Type} `{GoError E}.
Implicit Types (tm : TransactionManagerClient E S) (th : thread E) (s : S).

(** Three steps of a call are the call. *)
Lemma step_step_step tm ctx t s :
  let c1 := step tm (at_entry ctx t) s in
  let c2 := step tm c1.1 c1.2 in
  step tm c2.1 c2.2 =
    (returned (AddTransaction tm ctx t s).1, (AddTransaction tm ctx t s).2).
Proof.
  cbn [step]. destruct (ValidateTransaction tm ctx t) eqn:Hv; cbn.
  - rewrite (AddTransaction_valid _ _ _ _ Hv).
    destruct (storage.AddTransaction _ _ _ _) as [[r [e|]] s']; cbn;
      [destruct (strings.Contains _ _)|]; reflexivity.
  - rewrite (AddTransaction_invalid _ _ _ _ Hv). reflexivity.
Qed.

Lemma step_phase tm th s :
  (Nat.min 3 (phase th + 1) <= phase (step tm th s).1)%nat.
Proof.
  destruct th as [ctx t|ctx t|t err|r]; cbn.
  - destruct (negb _); cbn; lia.
  - destruct (storage.AddTransaction _ _ _ _) as [[r e] s']; cbn; lia.
  - lia.
  - lia.
Qed.

Lemma run_cons tm k sched cfg :
  run tm (k :: sched) cfg = run tm sched (schedule_step tm cfg k).
Proof. reflexivity. Qed.

Lemma schedule_step_length tm cfg k :
  length (schedule_step tm cfg k).1 = length cfg.1.
Proof.
  unfold schedule_step. destruct (cfg.1 !! k) as [th|]; [|reflexivity].
  destruct (step tm th cfg.2) as [th' s']. cbn. apply length_insert.
Qed.

Lemma run_length tm sched cfg : length (run tm sched cfg).1 = length cfg.1.
Proof.
  revert cfg. induction sched as [|k sched IH]; intros cfg; [reflexivity|].
  rewrite run_cons, IH. apply schedule_step_length.
Qed.

(** A call scheduled [n] times is [n] steps further, up to its return. *)
Lemma run_phase tm sched cfg k th :
  cfg.1 !! k = Some th ->
  exists th', (run tm sched cfg).1 !! k = Some th' /\
    (Nat.min 3 (phase th + count_occ Nat.eq_dec sched k) <= phase th')%nat.
Proof.
  revert cfg th. induction sched as [|j sched IH]; intros [pool s] th Hk.
  - exists th. split; [exact Hk | cbn [count_occ]; lia].
  - rewrite run_cons. cbn [count_occ]. unfold schedule_step. cbn [fst snd] in *.
    destruct (pool !! j) as [thj|] eqn:Hj.
    + pose proof (step_phase tm thj s) as Hph.
      destruct (step tm thj s) as [thj' s'] eqn:Hstep. cbn [fst] in Hph.
      destruct (Nat.eq_dec j k) as [->|Hne].
      * assert (thj = th) as -> by congruence.
        destruct (IH (<[k := thj']> pool, s') thj') as (th' & Hth' & Hle).
        { cbn. apply list_lookup_insert_eq. eapply lookup_lt_Some, Hk. }
        exists th'. split; [exact Hth' | lia].
      * destruct (IH (<[j := thj']> pool, s') th) as (th' & Hth' & Hle).
        { cbn. rewrite list_lookup_insert_ne by exact Hne. exact Hk. }
        exists th'. split; [exact Hth' | lia].
    + destruct (Nat.eq_dec j k) as [->|Hne]; [congruence|].
      apply (IH (pool, s) th Hk).
Qed.

End RunFacts.

Lemma count_insert {A} (p : A -> bool) (l : list A) (k : nat) (x y : A) :
  l !! k = Some x ->
  (count p (<[k := y]> l) + (if p x then 1 else 0) =
   count p l + (if p y then 1 else 0))%nat.
Proof.
  unfold count. revert k. induction l as [|a l IH]; intros [|k] Hk;
    try discriminate.
  - injection Hk as ->. cbn. destruct (p x), (p y); cbn [length]; lia.
  - simpl in Hk |- *. specialize (IH k Hk). destruct (p a); simpl length; lia.
Qed.

Lemma count_all {A} (p : A -> bool) (l : list A) :
  Forall (fun x => p x = true) l -> count p l = length l.
Proof.
  unfold count. induction 1 as [|x l Hx _ IH]; cbn; [reflexivity|].
  rewrite Hx. cbn. rewrite IH. reflexivity.
Qed.

Lemma call_ok_users id s s' th :
  (forall u, is_Some (users s !! u) -> is_Some (users s' !! u)) ->
  call_ok id s th -> call_ok id s' th.
Proof.
  intros Hmono. destruct th as [ctx t|ctx t|t [e|]|[r [e|]]]; cbn; auto.
  - intros (? & ? & ?). auto.
  - intros (? & ? & ?). auto.
Qed.

Lemma rows_with_id_snoc id rows r :
  rows_with_id id (rows ++ [r]) =
  (rows_with_id id rows + (if N.eqb (storage.ID r) id then 1 else 0))%nat.
Proof.
  unfold rows_with_id. rewrite count_app. unfold count at 2. cbn.
  destruct (N.eqb _ _); reflexivity.
Qed.

(** A step of any call of the run keeps the invariant. *)
Lemma run_inv_step id cfg k :
  run_inv id cfg -> run_inv id (schedule_step ledger cfg k).
Proof.
  destruct cfg as [pool s]. intros (Hok & Hrow & Hle & Hpast).
  unfold schedule_step. cbn [fst snd] in *.
  destruct (pool !! k) as [th|] eqn:Hk; [|repeat split; assumption].
  pose proof (proj1 (Forall_lookup _ _) Hok k th Hk) as Hth.
  pose proof (count_insert has_row pool k th) as Hc1.
  pose proof (count_insert past_insert pool k th) as Hc2.
  destruct th as [ctx t|ctx t|t [e|]|[r [e|]]]; cbn [step call_ok] in *.
  - destruct Hth as (Hid & Hv & Hu). rewrite Hv. cbn [negb].
    specialize (Hc1 (at_insert ctx t) Hk). specialize (Hc2 (at_insert ctx t) Hk).
    cbn in Hc1, Hc2. unfold run_inv. cbn [fst snd].
    repeat split; [|lia|assumption|lia].
    apply Forall_insert; [exact Hok|]. cbn. auto.
  - destruct Hth as (Hid & Hv & [b Hb]).
    change (storage.AddTransaction _ ctx (to_storage t) s)
      with (pg.AddTransaction ctx (to_storage t) s).
    unfold pg.AddTransaction. cbn [to_storage storage.UserID storage.ID].
    rewrite Hb, Hid.
    destruct (has_id id (transactions s)) eqn:Hd.
    + specialize (Hc1 (at_check t (Some ErrDuplicateID)) Hk).
      specialize (Hc2 (at_check t (Some ErrDuplicateID)) Hk).
      cbn in Hc1, Hc2. unfold run_inv. cbn [fst snd].
      assert (rows_with_id id (transactions s) <> 0%nat) as Hnz.
      { intros Hz. apply has_id_count in Hz. congruence. }
      repeat split; [|lia|assumption|lia].
      apply Forall_insert; [exact Hok|]. reflexivity.
    + specialize (Hc1 (at_check t None) Hk).
      specialize (Hc2 (at_check t None) Hk).
      cbn in Hc1, Hc2. apply has_id_count in Hd.
      unfold run_inv. cbn [fst snd transactions users].
      rewrite rows_with_id_snoc. cbn [to_storage storage.ID].
      rewrite Hid, N.eqb_refl.
      repeat split; [|lia|lia|lia].
      apply Forall_insert; [|exact I].
      eapply Forall_impl; [exact Hok|]. intros th. apply call_ok_users.
      intros u [bu Hbu]. cbn [users].
      destruct (decide (UserID t = u)) as [->|Hne].
      * rewrite lookup_insert_eq. eauto.
      * rewrite lookup_insert_ne by exact Hne. eauto.
  - subst e. rewrite duplicate_text_has_marker.
    specialize (Hc1 (returned (Transaction_zero, Some ErrTransactionAlreadyExist)) Hk).
    specialize (Hc2 (returned (Transaction_zero, Some ErrTransactionAlreadyExist)) Hk).
    cbn in Hc1, Hc2. unfold run_inv. cbn [fst snd].
    repeat split; [|lia|assumption|lia].
    apply Forall_insert; [exact Hok|]. reflexivity.
  - specialize (Hc1 (returned (t, None)) Hk).
    specialize (Hc2 (returned (t, None)) Hk).
    cbn in Hc1, Hc2. unfold run_inv. cbn [fst snd].
    repeat split; [|lia|assumption|lia].
    apply Forall_insert; [exact Hok|]. exact I.
  - rewrite list_insert_id by exact Hk. repeat split; assumption.
  - rewrite list_insert_id by exact Hk. repeat split; assumption.
Qed.

Lemma run_inv_run id sched cfg : run_inv id cfg -> run_inv id (run ledger sched cfg).
Proof.
  revert cfg. induction sched as [|k sched IH]; intros cfg Hinv; [exact Hinv|].
  rewrite run_cons. apply IH, run_inv_step, Hinv.
Qed.

Lemma count_spawn_zero (p : thread StoreError -> bool) calls :
  (forall ctx t, p (at_entry ctx t) = false) ->
  count p (spawn calls) = 0%nat.
Proof.
  intros Hp. unfold count, spawn. induction calls as [|c calls IH]; cbn;
    [reflexivity|]. rewrite Hp. exact IH.
Qed.

Lemma run_inv_spawn id s calls :
  Forall (fun c => ID c.2 = id /\ ValidateTransaction ledger c.1 c.2 = true /\
                   is_Some (users s !! UserID c.2)) calls ->
  has_id id (transactions s) = false ->
  run_inv id (spawn calls, s).
Proof.
  intros Hcalls Hd. apply has_id_count in Hd. unfold run_inv. cbn [fst snd].
  rewrite !count_spawn_zero by reflexivity. repeat split; [|lia|lia|auto].
  unfold spawn. apply Forall_fmap. eapply Forall_impl; [exact Hcalls|].
  intros c Hc. exact Hc.
Qed.

(** Among returned calls of the run, one either succeeded or was told the
    transaction exists. *)
Lemma returned_calls_split id s (pool : list (thread StoreError)) :
  Forall (call_ok id s) pool ->
  Forall (fun th => is_returned th = true) pool ->
  count succeeded pool = count has_row pool /\
  (count succeeded pool + count already_exists pool = length pool)%nat.
Proof.
  unfold count. induction pool as [|th pool IH]; intros Hok Hret; [split; reflexivity|].
  inversion Hok as [|? ? Hth Hok']; subst. inversion Hret as [|? ? Hr Hret']; subst.
  destruct (IH Hok' Hret') as [IH1 IH2].
  destruct th as [ctx t|ctx t|t e|[r [e|]]]; try discriminate Hr; cbn in *.
  - subst e. cbn. split; [exact IH1 | lia].
  - split; [congruence | lia].
Qed.

(** C1. [N >= 2] calls of [AddTransaction] with positive amounts for
    registered users, all carrying the same identity [id], not yet in the
    store, run concurrently under any schedule.  At every moment at most one
    of them has succeeded and at most one row with that identity is in the
    store; when every call has been given its three steps, in whatever order
    and interleaving, every call has returned, exactly one with success and
    the [N - 1] others with [ErrTransactionAlreadyExist], and the store holds
    exactly one row with that identity. *)
Theorem exactly_one_winner (s : Store) (calls : list (Context * Transaction))
    (id : UUID) (sched : list nat) :
  (2 <= length calls)%nat ->
  Forall (fun c => ID c.2 = id /\ ValidateTransaction ledger c.1 c.2 = true /\
                   is_Some (users s !! UserID c.2)) calls ->
  has_id id (transactions s) = false ->
  let final := run ledger sched (spawn calls, s) in
  ((count succeeded final.1 <= 1)%nat /\
   (rows_with_id id (transactions final.2) <= 1)%nat) /\
  (Forall (fun k => (3 <= count_occ Nat.eq_dec sched k)%nat)
     (seq 0 (length calls)) ->
   forallb is_returned final.1 = true /\
   count succeeded final.1 = 1%nat /\
   count already_exists final.1 = (length calls - 1)%nat /\
   rows_with_id id (transactions final.2) = 1%nat).
Proof.
  intros HN Hcalls Hfresh final.
  pose proof (run_inv_run id sched _ (run_inv_spawn id s calls Hcalls Hfresh))
    as (Hok & Hrow & Hle & Hpast).
  fold final in Hok, Hrow, Hle, Hpast.
  assert (length final.1 = length calls) as Hlen.
  { unfold final. rewrite run_length. cbn. unfold spawn.
    apply length_fmap. }
  split.
  - split; [|exact Hle]. rewrite <- Hrow in Hle.
    assert (count succeeded final.1 <= count has_row final.1)%nat; [|lia].
    unfold count. clear. induction final.1 as [|th pool IH]; cbn; [lia|].
    destruct th as [ctx t|ctx t|t [e|]|[r [e|]]]; cbn; lia.
  - intros Hfair.
    assert (Forall (fun th => is_returned th = true) final.1) as Hret.
    { apply Forall_lookup. intros k th' Hk.
      assert (k < length calls)%nat as Hlt
        by (rewrite <- Hlen; eapply lookup_lt_Some, Hk).
      destruct (lookup_lt_is_Some_2 (spawn (E:=StoreError) calls) k) as [th Hth].
      { unfold spawn. rewrite length_fmap. exact Hlt. }
      destruct (run_phase ledger sched (spawn calls, s) k th Hth)
        as (th'' & Hth'' & Hph).
      fold final in Hth''. assert (th'' = th') as -> by congruence.
      assert (phase th = 0%nat) as Hph0.
      { unfold spawn in Hth. rewrite list_lookup_fmap in Hth.
        destruct (calls !! k); [|discriminate]. injection Hth as <-. reflexivity. }
      assert (3 <= count_occ Nat.eq_dec sched k)%nat as H3.
      { rewrite Forall_forall in Hfair. apply Hfair.
        apply list_elem_of_In, in_seq. lia. }
      rewrite Hph0 in Hph. destruct th'; simpl phase in Hph; [lia..|reflexivity]. }
    destruct (returned_calls_split id final.2 final.1 Hok Hret) as [Hs1 Hs2].
    assert (count past_insert final.1 = length final.1) as Hall.
    { apply count_all. eapply Forall_impl; [exact Hret|].
      intros [| | |] Hr; try discriminate Hr; reflexivity. }
    split; [|lia].
    apply forallb_forall. intros th Hin. rewrite Forall_forall in Hret.
    apply Hret, list_elem_of_In, Hin.
Qed.

(** Three submissions of one transaction, their steps interleaved. *)
Lemma exactly_one_winner_witness :
  let calls := [(context.Background, deposit 1%N 100 9%N);
                (context.Background, deposit 1%N 100 9%N);
                (context.Background, deposit 1%N 100 9%N)] in
  let final := run ledger [0; 1; 2; 2; 1; 0; 1; 2; 0]%nat (spawn calls, fresh) in
  forallb is_returned final.1 = true /\
  count succeeded final.1 = 1%nat /\
  count already_exists final.1 = 2%nat /\
  rows_with_id 1%N (transactions final.2) = 1%nat.
Proof.
  refine (proj2 (exactly_one_winner fresh
            [(context.Background, deposit 1%N 100 9%N);
             (context.Background, deposit 1%N 100 9%N);
             (context.Background, deposit 1%N 100 9%N)]
            1%N [0; 1; 2; 2; 1; 0; 1; 2; 0]%nat _ _ _) _).
  - simpl. lia.
  - repeat constructor; exists decimal.NewFromFloat_0; reflexivity.
  - reflexivity.
  - repeat constructor.
Defined.

(** * Further properties of the manager *)

(** ** Comparing decimals and transactions *)

Lemma big_Cmp_zero (x y : Z) : decimal.big_Cmp x y = 0 <-> x = y.
Proof.
  unfold decimal.big_Cmp. destruct (Z.compare_spec x y); split;
    intros; try discriminate; try lia; reflexivity.
Qed.

Lemma same_exp_toQ (x y e : Z) :
  (decimal.toQ (decimal.New x e) == decimal.toQ (decimal.New y e))%Q <-> x = y.
Proof.
  unfold decimal.toQ. cbn [decimal.New decimal.value decimal.exp].
  rewrite Qmult_inj_r.
  - rewrite inject_Z_injective. reflexivity.
  - intros Hz. pose proof (ten_pow_pos e) as Hp. rewrite Hz in Hp.
    discriminate Hp.
Qed.

(** [Equal] is equality of the numbers the two decimals stand for. *)
Lemma Equal_toQ (a b : Decimal) :
  decimal.Equal a b = true <-> (decimal.toQ a == decimal.toQ b)%Q.
Proof.
  unfold decimal.Equal, decimal.Cmp. rewrite Z.eqb_eq.
  destruct (Z.eqb_spec (decimal.exp a) (decimal.exp b)) as [He|He].
  - rewrite big_Cmp_zero. destruct a as [x e], b as [y e']. cbn in He. subst e'.
    symmetry. apply same_exp_toQ.
  - rewrite big_Cmp_zero.
    rewrite <- (rescale_toQ a (Z.min (decimal.exp a) (decimal.exp b))) by lia.
    rewrite <- (rescale_toQ b (Z.min (decimal.exp a) (decimal.exp b))) by lia.
    symmetry. apply same_exp_toQ.
Qed.

Lemma transactionsEqual_fields (a b : Transaction) :
  transactionsEqual a b = true <->
  ID a = ID b /\ (decimal.toQ (Amount a) == decimal.toQ (Amount b))%Q /\
  UserID a = UserID b /\ CreatedAt a = CreatedAt b /\
  IdempotencyKey a = IdempotencyKey b.
Proof.
  unfold transactionsEqual, time.Equal.
  rewrite !andb_true_iff, !N.eqb_eq, Z.eqb_eq, Equal_toQ. tauto.
Qed.

(** X1. [transactionsEqual] accepts two transactions exactly when their ids,
    user ids, instants and idempotency keys are the same and their amounts
    stand for the same number, whatever exponents the amounts are written
    with. *)
Theorem transactionsEqual_iff (a b : Transaction) :
  transactionsEqual a b = true <->
  ID a = ID b /\ UserID a = UserID b /\ CreatedAt a = CreatedAt b /\
  IdempotencyKey a = IdempotencyKey b /\
  (decimal.toQ (Amount a) == decimal.toQ (Amount b))%Q.
Proof. rewrite transactionsEqual_fields. tauto. Qed.

(** X2. [transactionsEqual] is an equivalence: every transaction equals
    itself, the order of the arguments does not matter, and two transactions
    equal to a third are equal to each other. *)
Theorem transactionsEqual_equivalence :
  (forall a, transactionsEqual a a = true) /\
  (forall a b, transactionsEqual a b = transactionsEqual b a) /\
  (forall a b c, transactionsEqual a b = true -> transactionsEqual b c = true ->
                 transactionsEqual a c = true).
Proof.
  split; [|split].
  - intros a. apply transactionsEqual_fields. repeat split; reflexivity.
  - intros a b. apply eq_true_iff_eq. rewrite !transactionsEqual_fields.
    split; intros (H1 & H2 & H3 & H4 & H5); repeat split;
      try congruence; symmetry; exact H2.
  - intros a b c. rewrite !transactionsEqual_fields.
    intros (H1 & H2 & H3 & H4 & H5) (G1 & G2 & G3 & G4 & G5).
    repeat split; try congruence. rewrite H2. exact G2.
Qed.

Lemma transactionsEqual_equivalence_witness :
  transactionsEqual (deposit 1%N 100 9%N)
    {| ID := 1%N; Amount := decimal.New 10 1; UserID := alice;
       CreatedAt := 1577836800; IdempotencyKey := 9%N |} = true.
Proof.
  apply (proj2 (proj2 transactionsEqual_equivalence) _
           {| ID := 1%N; Amount := decimal.New 1 2; UserID := alice;
              CreatedAt := 1577836800; IdempotencyKey := 9%N |}).
  - reflexivity.
  - reflexivity.
Defined.

(** X3. [ValidateTransaction] gives the same answer on two transactions that
    [transactionsEqual] accepts, also when their amounts are written with
    different exponents. *)
Theorem ValidateTransaction_respects_transactionsEqual
    {E S E' S' : Type} (tm : TransactionManagerClient E S)
    (tm' : TransactionManagerClient E' S') (ctx ctx' : Context)
    (a b : Transaction) :
  transactionsEqual a b = true ->
  ValidateTransaction tm ctx a = ValidateTransaction tm' ctx' b.
Proof.
  intros Heq. apply transactionsEqual_fields in Heq as (_ & Hq & _).
  unfold ValidateTransaction. apply eq_true_iff_eq.
  rewrite !IsPositive_toQ, Hq. reflexivity.
Qed.

Lemma ValidateTransaction_respects_transactionsEqual_witness :
  ValidateTransaction ledger context.Background (deposit 1%N 100 9%N) =
  ValidateTransaction ledger context.Background
    {| ID := 1%N; Amount := decimal.New 1 2; UserID := alice;
       CreatedAt := 1577836800; IdempotencyKey := 9%N |}.
Proof.
  apply (ValidateTransaction_respects_transactionsEqual ledger ledger).
  reflexivity.
Defined.

(** ** The outcomes of [AddTransaction], with any client *)

(** X4. [AddTransaction] returns a nil error exactly when the amount is
    positive and the insert returned a nil error. *)
Theorem AddTransaction_succeeds_iff
    {E S : Type} `{GoError E} (tm : TransactionManagerClient E S)
    (ctx : Context) (t : Transaction) (s : S) :
  (AddTransaction tm ctx t s).1.2 = None <->
  ValidateTransaction tm ctx t = true /\
  (storage.AddTransaction (storage.transactionRepository (storageClient tm))
     ctx (to_storage t) s).1.2 = None.
Proof.
  destruct (ValidateTransaction tm ctx t) eqn:Hv.
  - rewrite (AddTransaction_valid _ _ _ _ Hv).
    destruct (storage.AddTransaction _ _ _ _) as [[r [e|]] s']; cbn;
      split; try tauto; try discriminate.
    intros [_ Hn]. discriminate Hn.
  - rewrite (AddTransaction_invalid _ _ _ _ Hv). cbn.
    split; [discriminate | intros [Hf _]; discriminate Hf].
Qed.

(** X5. How [AddTransaction] reads a failed insert.  It answers
    [ErrTransactionAlreadyExist] exactly when the amount is positive and the
    insert failed with an error in whose text the marker occurs, at any
    place, so also inside a longer message; it hands an error [e] on exactly
    when the amount is positive, the insert failed with [e], and the marker
    occurs nowhere in the text of [e]. *)
Theorem AddTransaction_classifies_by_text
    {E S : Type} `{GoError E} (tm : TransactionManagerClient E S)
    (ctx : Context) (t : Transaction) (s : S) :
  let inserted :=
    storage.AddTransaction (storage.transactionRepository (storageClient tm))
      ctx (to_storage t) s in
  ((AddTransaction tm ctx t s).1.2 = Some ErrTransactionAlreadyExist <->
   ValidateTransaction tm ctx t = true /\
   exists e before after,
     inserted.1.2 = Some e /\
     Error e = before +:+ duplicate_marker +:+ after) /\
  (forall e : E,
     (AddTransaction tm ctx t s).1.2 = Some (surfaced e) <->
     ValidateTransaction tm ctx t = true /\ inserted.1.2 = Some e /\
     ~ exists before after, Error e = before +:+ duplicate_marker +:+ after).
Proof.
  intros inserted. subst inserted.
  destruct (ValidateTransaction tm ctx t) eqn:Hv.
  - rewrite (AddTransaction_valid _ _ _ _ Hv).
    destruct (storage.AddTransaction _ _ _ _) as [[r [e|]] s']; cbn.
    + pose proof (Contains_spec (Error e) duplicate_marker) as Hspec.
      destruct (strings.Contains (Error e) duplicate_marker).
      * split.
        -- split; [|reflexivity]. intros _. split; [reflexivity|].
           destruct (proj1 Hspec eq_refl) as (b & a & Hba).
           exists e, b, a. split; [reflexivity | exact Hba].
        -- intros e'. split; [discriminate|].
           intros (_ & [= <-] & Hno). exfalso. apply Hno, Hspec. reflexivity.
      * split.
        -- split; [discriminate|].
           intros (_ & e' & b & a & [= <-] & Hba).
           assert (false = true) as Hft
             by (apply Hspec; exists b, a; exact Hba).
           discriminate Hft.
        -- intros e'. split.
           ++ intros [= <-]. repeat split. intros Hex.
              apply Hspec in Hex. discriminate Hex.
           ++ intros (_ & [= <-] & _). reflexivity.
    + split.
      * split; [discriminate|]. intros (_ & e & b & a & He & _). discriminate He.
      * intros e. split; [discriminate|]. intros (_ & He & _). discriminate He.
  - rewrite (AddTransaction_invalid _ _ _ _ Hv). cbn. split.
    + split; [discriminate | intros [Hf _]; discriminate Hf].
    + intros e. split; [discriminate | intros [Hf _]; discriminate Hf].
Qed.

(** X6. For a transaction with a positive amount [AddTransaction] makes one
    call on the store, the insert of the row with the five fields of the
    transaction, whatever the insert answers: no user lookup, no second
    attempt.  The store is left as the insert left it. *)
Theorem AddTransaction_one_store_call
    {E S : Type} `{GoError E} (sc : storage.StorageClient E S)
    (ctx : Context) (t : Transaction) (s : S) (log : list Call) :
  ValidateTransaction (NewTransactionManagerClient sc) ctx t = true ->
  AddTransaction (NewTransactionManagerClient (traced sc)) ctx t (s, log) =
    ((AddTransaction (NewTransactionManagerClient sc) ctx t s).1,
     ((storage.AddTransaction (storage.transactionRepository sc)
         ctx (to_storage t) s).2,
      log ++ [CallAddTransaction (to_storage t)])).
Proof.
  intros Hv.
  rewrite (AddTransaction_valid (NewTransactionManagerClient (traced sc)) _ _ _ Hv).
  rewrite (AddTransaction_valid (NewTransactionManagerClient sc) _ _ _ Hv).
  cbn. destruct (storage.AddTransaction _ _ _ _) as [[r [e|]] s']; reflexivity.
Qed.

Lemma AddTransaction_one_store_call_witness :
  AddTransaction (NewTransactionManagerClient (traced pg.client))
    context.Background (deposit 1%N 100 9%N) (fresh, []) =
  ((deposit 1%N 100 9%N, None),
   ((pg.AddTransaction context.Background (to_storage (deposit 1%N 100 9%N))
       fresh).2,
    [CallAddTransaction (to_storage (deposit 1%N 100 9%N))])).
Proof.
  apply (AddTransaction_one_store_call pg.client context.Background
           (deposit 1%N 100 9%N) fresh []).
  reflexivity.
Defined.

(** ** The two reads, with any client *)

(** X7. [GetUserBalance] makes one call on the store, the lookup of that
    user.  When the lookup fails it returns the zero decimal and the lookup's
    error as it is: never one of the manager's own two errors, also when the
    text of the error carries the duplicate marker. *)
Theorem GetUserBalance_one_lookup
    {E S : Type} `{GoError E} (sc : storage.StorageClient E S)
    (ctx : Context) (u : UUID) (s : S) (log : list Call) :
  let found := storage.FindByID (storage.userRepository sc) ctx u s in
  (GetUserBalance (NewTransactionManagerClient (traced sc)) ctx u (s, log)).2 =
    (found.2, log ++ [CallFindByID u]) /\
  (GetUserBalance (NewTransactionManagerClient (traced sc)) ctx u (s, log)).1 =
    (GetUserBalance (NewTransactionManagerClient sc) ctx u s).1 /\
  (forall e : E,
     found.1.2 = Some e ->
     (GetUserBalance (NewTransactionManagerClient sc) ctx u s).1 =
       (decimal.New 0 0, Some (surfaced e))).
Proof.
  intros found. subst found. unfold GetUserBalance. cbn.
  destruct (storage.FindByID _ _ _ _) as [[user [e|]] s']; cbn.
  - repeat split. intros e' [= <-]. reflexivity.
  - repeat split. intros e' He'. discriminate He'.
Qed.

Lemma GetUserBalance_one_lookup_witness :
  (GetUserBalance
     (NewTransactionManagerClient (failing (unique_violation "users_pkey")))
     context.Background alice tt).1 =
  (decimal.New 0 0, Some (surfaced (unique_violation "users_pkey"))).
Proof.
  apply (GetUserBalance_one_lookup (failing (unique_violation "users_pkey"))
           context.Background alice tt []).
  reflexivity.
Defined.

(** X8. Whenever [GetUserTransactionHistory] returns an error, the sequence
    it returns is empty and the error is the one of the lookup that failed,
    the user's or the transactions', handed on as it is. *)
Theorem history_failure_returns_empty
    {E S : Type} `{GoError E} (tm : TransactionManagerClient E S)
    (ctx : Context) (u : UUID) (page pageSize : Z) (s : S) (e : error E) :
  (GetUserTransactionHistory tm ctx u page pageSize s).1.2 = Some e ->
  let found := storage.FindByID (storage.userRepository (storageClient tm))
                 ctx u s in
  let listed := storage.GetUserTransactionHistory
                  (storage.transactionRepository (storageClient tm))
                  ctx u page pageSize found.2 in
  (GetUserTransactionHistory tm ctx u page pageSize s).1.1 = [] /\
  exists e0 : E, e = surfaced e0 /\
    (found.1.2 = Some e0 \/ (found.1.2 = None /\ listed.1.2 = Some e0)).
Proof.
  intros He found listed. subst found listed. revert He.
  unfold GetUserTransactionHistory.
  destruct (storage.FindByID _ _ _ _) as [[user [e1|]] s1]; cbn.
  - intros [= <-]. split; [reflexivity|]. exists e1. auto.
  - destruct (storage.GetUserTransactionHistory _ _ _ _ _ _)
      as [[rows [e2|]] s2]; cbn.
    + intros [= <-]. split; [reflexivity|]. exists e2. auto.
    + discriminate.
Qed.

Lemma history_failure_returns_empty_witness :
  (GetUserTransactionHistory ledger context.Background 8%N 1 10 fresh).1.1 = [].
Proof.
  apply (history_failure_returns_empty ledger context.Background 8%N 1 10 fresh
           (surfaced ErrUserNotFound)).
  reflexivity.
Defined.

(** X9. When both lookups succeed, [GetUserTransactionHistory] returns the
    rows of the repository one for one and in their order, each with its five
    fields unchanged: turned back into storage rows they are the rows the
    repository returned.  The store has seen the user lookup and then the
    transaction lookup, with the user id, page and page size of the caller. *)
Theorem history_returns_the_rows
    {E S : Type} `{GoError E} (sc : storage.StorageClient E S)
    (ctx : Context) (u : UUID) (page pageSize : Z) (s s1 s2 : S)
    (user : storage.User) (rows : list storage.Transaction) (log : list Call) :
  storage.FindByID (storage.userRepository sc) ctx u s = ((user, None), s1) ->
  storage.GetUserTransactionHistory (storage.transactionRepository sc)
    ctx u page pageSize s1 = ((rows, None), s2) ->
  let result :=
    GetUserTransactionHistory (NewTransactionManagerClient (traced sc))
      ctx u page pageSize (s, log) in
  result.1 = (from_storage <$> rows, None) /\
  to_storage <$> result.1.1 = rows /\
  length result.1.1 = length rows /\
  result.2 = (s2, log ++ [CallFindByID u;
                          CallGetUserTransactionHistory u page pageSize]).
Proof.
  intros Hfind Hlist result. subst result.
  unfold GetUserTransactionHistory. cbn. rewrite Hfind. cbn. rewrite Hlist. cbn.
  repeat split.
  - rewrite <- list_fmap_compose. clear.
    induction rows as [|[i a usr c k] rows IH]; cbn; [reflexivity|].
    f_equal. exact IH.
  - apply length_fmap.
  - rewrite <- app_assoc. reflexivity.
Qed.

Lemma history_returns_the_rows_witness :
  (GetUserTransactionHistory (NewTransactionManagerClient (traced pg.client))
     context.Background alice 1 10
     ((AddTransaction ledger context.Background (deposit 1%N 100 9%N) fresh).2,
      [])).1 =
  ([deposit 1%N 100 9%N], None).
Proof.
  refine (proj1 (history_returns_the_rows pg.client context.Background alice 1 10
            (AddTransaction ledger context.Background (deposit 1%N 100 9%N) fresh).2
            _ _
            {| storage.User_ID := alice; storage.Balance := decimal.New 100 0 |}
            [to_storage (deposit 1%N 100 9%N)] [] _ _)).
  - reflexivity.
  - reflexivity.
Defined.

(** ** Calls one after the other, over the store *)

Lemma has_id_snoc id rows r :
  has_id id (rows ++ [r]) = has_id id rows || N.eqb (storage.ID r) id.
Proof. unfold has_id. rewrite existsb_app. cbn. rewrite orb_false_r. reflexivity. Qed.

(** A call that succeeded found the user, found the identity free, and left
    the store with the new row and the new balance. *)
Lemma ledger_add_success ctx t s :
  (AddTransaction ledger ctx t s).1.2 = None ->
  exists b, ValidateTransaction ledger ctx t = true /\
    users s !! UserID t = Some b /\
    has_id (ID t) (transactions s) = false /\
    AddTransaction ledger ctx t s =
      ((t, None),
       {| users := <[UserID t := decimal.Add b (Amount t)]> (users s);
          transactions := transactions s ++ [to_storage t] |}).
Proof.
  destruct (ValidateTransaction ledger ctx t) eqn:Hv.
  - destruct (users s !! UserID t) as [b|] eqn:Hu.
    + destruct (has_id (ID t) (transactions s)) eqn:Hd.
      * rewrite (ledger_add_duplicate _ _ _ _ Hv Hu Hd). discriminate.
      * intros _. exists b. rewrite (ledger_add_fresh _ _ _ _ Hv Hu Hd). auto.
    + rewrite (ledger_add_unknown_user _ _ _ Hv Hu). discriminate.
  - rewrite (AddTransaction_invalid _ _ _ _ Hv). discriminate.
Qed.



(** ** Concurrent calls, of any kind and with different identities *)

Lemma ledger_valid_add_store ctx t s :
  ValidateTransaction ledger ctx t = true ->
  (pg.AddTransaction ctx (to_storage t) s).2 = (AddTransaction ledger ctx t s).2.
Proof.
  intros Hv. rewrite (AddTransaction_valid _ _ _ _ Hv). cbn.
  destruct (pg.AddTransaction ctx (to_storage t) s) as [[r [e|]] s']; reflexivity.
Qed.

Lemma add_keeps_one_row_per_id ctx t s :
  (forall id, (rows_with_id id (transactions s) <= 1)%nat) ->
  forall id, (rows_with_id id (transactions (AddTransaction ledger ctx t s).2) <= 1)%nat.
Proof.
  intros Hone id.
  destruct (ledger_add_store ctx t s) as [->|(b & _ & _ & Hd & _ & ->)];
    [apply Hone|].
  cbn [transactions]. rewrite rows_with_id_snoc. cbn [to_storage storage.ID].
  destruct (N.eqb_spec (ID t) id) as [Heq|Hne]; [|specialize (Hone id); lia].
  rewrite Heq in Hd. apply has_id_count in Hd. lia.
Qed.

Lemma serial_keeps_one_row_per_id seq s :
  (forall id, (rows_with_id id (transactions s) <= 1)%nat) ->
  forall id, (rows_with_id id (transactions (serial s seq)) <= 1)%nat.
Proof.
  revert s. induction seq as [|c seq IH]; intros s Hone; [exact Hone|].
  apply (IH (AddTransaction ledger c.1 c.2 s).2), add_keeps_one_row_per_id, Hone.
Qed.

Lemma serial_snoc s seq c :
  serial s (seq ++ [c]) = (AddTransaction ledger c.1 c.2 (serial s seq)).2.
Proof. unfold serial. rewrite fold_left_app. reflexivity. Qed.

(** A step of a run, seen from the store: nothing, or one more call made
    after the calls made so far. *)
Lemma run_serial_step (calls : list (Context * Transaction)) s0 cfg k :
  (exists seq, cfg.2 = serial s0 seq /\ Forall (fun c => c ∈ calls) seq) /\
  Forall insert_ready cfg.1 /\ Forall (runs_one_of calls) cfg.1 ->
  let cfg' := schedule_step ledger cfg k in
  (exists seq, cfg'.2 = serial s0 seq /\ Forall (fun c => c ∈ calls) seq) /\
  Forall insert_ready cfg'.1 /\ Forall (runs_one_of calls) cfg'.1.
Proof.
  destruct cfg as [pool s]. cbn [fst snd]. intros (Hseq & Hready & Hof).
  cbn zeta. unfold schedule_step. cbn [fst snd].
  destruct (pool !! k) as [th|] eqn:Hk; [|repeat split; assumption].
  pose proof (proj1 (Forall_lookup _ _) Hready k th Hk) as Hth.
  pose proof (proj1 (Forall_lookup _ _) Hof k th Hk) as Hin.
  destruct th as [ctx t|ctx t|t err|r]; cbn [step insert_ready runs_one_of] in *.
  - destruct (ValidateTransaction ledger ctx t) eqn:Hv; cbn [negb fst snd].
    + split; [exact Hseq|].
      split; apply Forall_insert; assumption.
    + split; [exact Hseq|].
      split; apply Forall_insert; try assumption; exact I.
  - change (storage.AddTransaction _ ctx (to_storage t) s)
      with (pg.AddTransaction ctx (to_storage t) s).
    pose proof (ledger_valid_add_store ctx t s Hth) as Hstore.
    destruct (pg.AddTransaction ctx (to_storage t) s) as [[r err] s'].
    cbn [fst snd] in *. subst s'. split.
    + destruct Hseq as (seq & -> & Hall). exists (seq ++ [(ctx, t)]). split.
      * rewrite serial_snoc. reflexivity.
      * apply Forall_app. split; [exact Hall|]. constructor; [exact Hin|constructor].
    + split; apply Forall_insert; try assumption; exact I.
  - split; [exact Hseq|]. split; apply Forall_insert; try assumption; exact I.
  - split; [exact Hseq|]. split; apply Forall_insert; try assumption; exact I.
Qed.

Lemma run_serial (calls : list (Context * Transaction)) s0 sched cfg :
  (exists seq, cfg.2 = serial s0 seq /\ Forall (fun c => c ∈ calls) seq) /\
  Forall insert_ready cfg.1 /\ Forall (runs_one_of calls) cfg.1 ->
  let cfg' := run ledger sched cfg in
  (exists seq, cfg'.2 = serial s0 seq /\ Forall (fun c => c ∈ calls) seq) /\
  Forall insert_ready cfg'.1 /\ Forall (runs_one_of calls) cfg'.1.
Proof.
  revert cfg. induction sched as [|k sched IH]; intros cfg Hinv; [exact Hinv|].
  cbn zeta. rewrite run_cons. apply IH, (run_serial_step calls s0 cfg k Hinv).
Qed.

(** X13. Whatever calls of [AddTransaction] run concurrently, with valid or
    invalid amounts, known or unknown users, fresh or used identities, and
    however their steps are interleaved, also when some have not returned
    yet, the store they leave is the store that some of these calls, made one
    after the other, leave.  So a store with at most one row per id has at
    most one row per id after the run. *)
Theorem concurrent_runs_are_serial (s : Store)
    (calls : list (Context * Transaction)) (sched : list nat) :
  let final := run ledger sched (spawn calls, s) in
  (exists seq : list (Context * Transaction),
     final.2 = serial s seq /\ Forall (fun c => c ∈ calls) seq) /\
  ((forall id : UUID, (rows_with_id id (transactions s) <= 1)%nat) ->
   forall id : UUID, (rows_with_id id (transactions final.2) <= 1)%nat).
Proof.
  intros final.
  destruct (run_serial calls s sched (spawn calls, s)) as ((seq & Hseq & Hall) & _).
  { cbn [fst snd]. split; [exists []; split; [reflexivity | constructor]|].
    unfold spawn. split; apply Forall_fmap, Forall_forall.
    - intros c _. exact I.
    - intros c Hc. destruct c as [ctx t]. exact Hc. }
  fold final in Hseq. split.
  - exists seq. split; [exact Hseq | exact Hall].
  - intros Hone id. rewrite Hseq. apply serial_keeps_one_row_per_id, Hone.
Qed.

Lemma concurrent_runs_are_serial_witness :
  (rows_with_id 1%N
     (transactions
        (run ledger [0; 1; 1; 0; 2; 1; 0]%nat
           (spawn [(context.Background, deposit 1%N 100 9%N);
                   (context.Background, deposit 1%N 5 9%N);
                   (context.Background, deposit 2%N 0 9%N)], fresh)).2) <= 1)%nat.
Proof.
  refine (proj2 (concurrent_runs_are_serial fresh
            [(context.Background, deposit 1%N 100 9%N);
             (context.Background, deposit 1%N 5 9%N);
             (context.Background, deposit 2%N 0 9%N)]
            [0; 1; 1; 0; 2; 1; 0]%nat) _ 1%N).
  intros id. exact (le_S 0 0 (le_n 0)).
Defined.

(** The invariant of a run of calls with pairwise different identities. *)
Lemma tracks_step (calls : list (Context * Transaction)) cfg k :
  NoDup ((fun c => ID c.2) <$> calls) ->
  length cfg.1 = length calls /\
  (forall j c th, calls !! j = Some c -> cfg.1 !! j = Some th ->
                  tracks cfg.2 c th) /\
  Forall (fun c => ValidateTransaction ledger c.1 c.2 = true /\
                   is_Some (users cfg.2 !! UserID c.2)) calls ->
  let cfg' := schedule_step ledger cfg k in
  length cfg'.1 = length calls /\
  (forall j c th, calls !! j = Some c -> cfg'.1 !! j = Some th ->
                  tracks cfg'.2 c th) /\
  Forall (fun c => ValidateTransaction ledger c.1 c.2 = true /\
                   is_Some (users cfg'.2 !! UserID c.2)) calls.
Proof.
  destruct cfg as [pool s]. cbn [fst snd]. intros Hnd (Hlen & Htr & Hcalls).
  cbn zeta. unfold schedule_step. cbn [fst snd].
  destruct (pool !! k) as [th|] eqn:Hk; [|repeat split; assumption].
  destruct (lookup_lt_is_Some_2 calls k) as [c Hc].
  { rewrite <- Hlen. eapply lookup_lt_Some, Hk. }
  pose proof (Htr k c th Hc Hk) as Hth.
  pose proof (proj1 (Forall_lookup _ _) Hcalls k c Hc) as [Hv [b Hb]].
  assert (forall th', (forall j c' th'', calls !! j = Some c' ->
                         <[k := th']> pool !! j = Some th'' ->
                         j <> k -> tracks s c' th'')) as Hothers.
  { intros th' j c' th'' Hc' Hj Hne.
    rewrite list_lookup_insert_ne in Hj by congruence. eauto. }
  destruct Hth as [[[-> | ->] Hd] | [[-> | ->] Hd]]; cbn [step].
  - rewrite Hv. cbn [negb fst snd].
    split; [rewrite length_insert; exact Hlen|]. split; [|exact Hcalls].
    intros j c' th'' Hc' Hj. destruct (decide (j = k)) as [->|Hne].
    + rewrite list_lookup_insert_eq in Hj by (eapply lookup_lt_Some, Hk).
      injection Hj as <-. assert (c' = c) as -> by congruence.
      left. split; [right; reflexivity | exact Hd].
    + eapply Hothers; eassumption.
  - change (storage.AddTransaction _ c.1 (to_storage c.2) s)
      with (pg.AddTransaction c.1 (to_storage c.2) s).
    unfold pg.AddTransaction. cbn [to_storage storage.UserID storage.ID].
    rewrite Hb, Hd. cbn [fst snd].
    split; [rewrite length_insert; exact Hlen|]. split.
    + intros j c' th'' Hc' Hj. destruct (decide (j = k)) as [->|Hne].
      * rewrite list_lookup_insert_eq in Hj by (eapply lookup_lt_Some, Hk).
        injection Hj as <-. assert (c' = c) as -> by congruence.
        right. split; [left; reflexivity|]. cbn [transactions].
        rewrite has_id_snoc. cbn [to_storage storage.ID].
        rewrite N.eqb_refl. apply orb_true_r.
      * rewrite list_lookup_insert_ne in Hj by congruence.
        assert (ID c.2 <> ID c'.2) as Hid.
        { intros Heq. apply Hne.
          apply (NoDup_lookup _ j k (ID c.2) Hnd);
            rewrite list_lookup_fmap; [rewrite Hc' | rewrite Hc]; cbn; congruence. }
        destruct (Htr j c' th'' Hc' Hj) as [[Hst Hd'] | [Hst Hd']].
        -- left. split; [exact Hst|]. cbn [transactions]. rewrite has_id_snoc, Hd'.
           cbn [to_storage storage.ID orb]. apply N.eqb_neq. exact Hid.
        -- right. split; [exact Hst|]. cbn [transactions]. rewrite has_id_snoc, Hd'.
           reflexivity.
    + eapply Forall_impl; [exact Hcalls|]. intros c' [Hv' [b' Hb']].
      split; [exact Hv'|]. cbn [users].
      destruct (decide (UserID c.2 = UserID c'.2)) as [Heq|Hne].
      * rewrite Heq, lookup_insert_eq. eauto.
      * rewrite lookup_insert_ne by exact Hne. eauto.
  - cbn [fst snd].
    split; [rewrite length_insert; exact Hlen|]. split; [|exact Hcalls].
    intros j c' th'' Hc' Hj. destruct (decide (j = k)) as [->|Hne].
    + rewrite list_lookup_insert_eq in Hj by (eapply lookup_lt_Some, Hk).
      injection Hj as <-. assert (c' = c) as -> by congruence.
      right. split; [right; reflexivity | exact Hd].
    + eapply Hothers; eassumption.
  - cbn [fst snd]. rewrite list_insert_id by exact Hk.
    repeat split; assumption.
Qed.

Lemma tracks_run (calls : list (Context * Transaction)) sched cfg :
  NoDup ((fun c => ID c.2) <$> calls) ->
  length cfg.1 = length calls /\
  (forall j c th, calls !! j = Some c -> cfg.1 !! j = Some th ->
                  tracks cfg.2 c th) /\
  Forall (fun c => ValidateTransaction ledger c.1 c.2 = true /\
                   is_Some (users cfg.2 !! UserID c.2)) calls ->
  let cfg' := run ledger sched cfg in
  length cfg'.1 = length calls /\
  (forall j c th, calls !! j = Some c -> cfg'.1 !! j = Some th ->
                  tracks cfg'.2 c th) /\
  Forall (fun c => ValidateTransaction ledger c.1 c.2 = true /\
                   is_Some (users cfg'.2 !! UserID c.2)) calls.
Proof.
  intros Hnd. revert cfg. induction sched as [|k sched IH]; intros cfg Hinv;
    [exact Hinv|].
  cbn zeta. rewrite run_cons. apply IH, (tracks_step calls cfg k Hnd Hinv).
Qed.

(** X14. Calls of [AddTransaction] with positive amounts for registered
    users and pairwise different identities, none of them in the store, do
    not disturb each other: once every call has been given its three steps,
    in whatever order and interleaving, every call has returned its own
    transaction with a nil error and every identity is in the store. *)
Theorem independent_calls_all_succeed (s : Store)
    (calls : list (Context * Transaction)) (sched : list nat) :
  NoDup ((fun c => ID c.2) <$> calls) ->
  Forall (fun c => ValidateTransaction ledger c.1 c.2 = true /\
                   is_Some (users s !! UserID c.2) /\
                   has_id (ID c.2) (transactions s) = false) calls ->
  Forall (fun k => (3 <= count_occ Nat.eq_dec sched k)%nat)
    (seq 0 (length calls)) ->
  let final := run ledger sched (spawn calls, s) in
  final.1 = (fun c => returned (c.2, None)) <$> calls /\
  count succeeded final.1 = length calls /\
  Forall (fun c => has_id (ID c.2) (transactions final.2) = true) calls.
Proof.
  intros Hnd Hcalls Hfair final.
  destruct (tracks_run calls sched (spawn calls, s) Hnd) as (Hlen & Htr & _).
  { cbn [fst snd]. split; [unfold spawn; apply length_fmap|]. split.
    - intros j c th Hc Hj. unfold spawn in Hj. rewrite list_lookup_fmap, Hc in Hj.
      injection Hj as <-.
      pose proof (proj1 (Forall_lookup _ _) Hcalls j c Hc) as (_ & _ & Hd).
      left. split; [left; reflexivity | exact Hd].
    - eapply Forall_impl; [exact Hcalls|]. intros c (Hv & Hu & _). auto. }
  fold final in Hlen, Htr.
  assert (forall k c, calls !! k = Some c ->
            final.1 !! k = Some (returned (c.2, None)) /\
            has_id (ID c.2) (transactions final.2) = true) as Hdone.
  { intros k c Hc.
    assert (spawn (E:=StoreError) calls !! k = Some (at_entry c.1 c.2)) as Hth.
    { unfold spawn. rewrite list_lookup_fmap, Hc. reflexivity. }
    destruct (run_phase ledger sched (spawn calls, s) k _ Hth) as (th' & Hth' & Hph).
    fold final in Hth'.
    assert (3 <= count_occ Nat.eq_dec sched k)%nat as H3.
    { rewrite Forall_forall in Hfair. apply Hfair.
      apply list_elem_of_In, in_seq. apply lookup_lt_Some in Hc. lia. }
    destruct (Htr k c th' Hc Hth') as [[[-> | ->] Hd] | [[-> | ->] Hd]];
      simpl phase in Hph; try lia.
    split; [exact Hth' | exact Hd]. }
  assert (final.1 = (fun c => returned (c.2, None)) <$> calls) as Hpool.
  { apply list_eq. intros k. rewrite list_lookup_fmap.
    destruct (calls !! k) as [c|] eqn:Hc.
    - rewrite (proj1 (Hdone k c Hc)). reflexivity.
    - apply lookup_ge_None. rewrite Hlen. apply lookup_ge_None. exact Hc. }
  split; [exact Hpool|]. split.
  - rewrite Hpool. unfold count. clear. induction calls as [|c calls IH];
      cbn; [reflexivity|]. rewrite IH. reflexivity.
  - apply Forall_lookup. intros k c Hc. apply (Hdone k c Hc).
Qed.

(** Three deposits of different amounts under different ids, interleaved. *)
Lemma independent_calls_all_succeed_witness :
  (run ledger [0; 1; 2; 2; 1; 0; 1; 2; 0]%nat
     (spawn [(context.Background, deposit 1%N 1 9%N);
             (context.Background, deposit 2%N 2 9%N);
             (context.Background, deposit 3%N 3 9%N)], fresh)).1 =
  [returned (deposit 1%N 1 9%N, None);
   returned (deposit 2%N 2 9%N, None);
   returned (deposit 3%N 3 9%N, None)].
Proof.
  refine (proj1 (independent_calls_all_succeed fresh
            [(context.Background, deposit 1%N 1 9%N);
             (context.Background, deposit 2%N 2 9%N);
             (context.Background, deposit 3%N 3 9%N)]
            [0; 1; 2; 2; 1; 0; 1; 2; 0]%nat _ _ _)).
  - apply (bool_decide_unpack _). vm_compute. exact I.
  - repeat constructor; exists decimal.NewFromFloat_0; reflexivity.
  - repeat constructor.
Defined.
